(** * Solar-system visualisation: simulation clock and orbital kinematics

    A shallow embedding of the numerical core of the repository:

    - [TimeSystem]       class [TimeSystem] (systems/timeSystem.ts)
    - [CelestialData]    the element table, scale factors and epoch
                         (data/celestialData.ts), with the interfaces of
                         types/index.ts
    - [OrbitalMath]      class [OrbitalMath] (utils/orbitalMath.ts)
    - [CelestialObjects] class [CelestialObjects]: construction of the
                         sun, planet and moon meshes and of the orbit lines

    Numbers.  The clock only ever handles [Date.now()] readings, their
    differences, and products with a rate that is a multiple of 1000: every
    intermediate value is an integer number of milliseconds, so the clock is
    modelled over [Z] (lemma [scale_div_exact] justifies the integer
    division).  The orbital code is trigonometric; there the doubles
    of the source are idealised as real numbers ([R]), [Math.sin], [Math.cos]
    and [Math.sqrt] are the real functions and [Math.PI] is [PI].  Rounding
    error is outside this model.  So are the divisions by zero and the
    square roots of negative numbers that give [Infinity] or [NaN] in the
    source: the real-number operations are total there ([x / 0] is [0],
    [sqrt x] is [0] for negative [x]) and the model says nothing about the
    source for such arguments. *)

From Stdlib Require Import ZArith Lia Bool List.
From Stdlib Require String.
Import String.StringSyntax.
Delimit Scope string_scope with string.
From Stdlib Require Import Reals Lra Machin.
Import ListNotations.

(* ================================================================== *)
(** ** The simulation clock *)
(* ================================================================== *)

Module TimeSystem.

Local Open Scope Z_scope.

(** [type TimeMode = 'static' | 'animation'] *)
Inductive TimeMode : Set := static | animation.

(** The argument type of [setTimeScaleOption]. *)
Inductive TimeScaleOption : Set := hour | day | week.

(** The fields of [class TimeSystem]. *)
Record t : Set := mk {
  timeMode               : TimeMode;
  simulationStartTime    : Z;
  animationTimeScale     : Z;
  isPaused               : bool;
  pausedTime             : Z;
  currentTimeScaleOption : TimeScaleOption
}.

(** Field initialisers; [now] is the reading of [Date.now()] at
    construction.  The constructor body only wires up DOM listeners. *)
Definition init (now : Z) : t :=
  {| timeMode := static;
     simulationStartTime := now;
     animationTimeScale := 7 * 24 * 60 * 60 * 1000;
     isPaused := false;
     pausedTime := 0;
     currentTimeScaleOption := week |}.

(** [getSimulationTime()], with the wall clock made explicit. *)
Definition getSimulationTime (now : Z) (s : t) : Z :=
  match timeMode s with
  | static => now
  | animation =>
      if isPaused s then
        simulationStartTime s + pausedTime s * animationTimeScale s / 1000
      else
        let realTimeElapsed := now - simulationStartTime s in
        let simulationTimeElapsed :=
          realTimeElapsed * animationTimeScale s / 1000 in
        simulationStartTime s + simulationTimeElapsed
  end.

(** [toggleTimeMode()] *)
Definition toggleTimeMode (now : Z) (s : t) : t :=
  match timeMode s with
  | static =>
      {| timeMode := animation;
         simulationStartTime := now;
         animationTimeScale := animationTimeScale s;
         isPaused := false;
         pausedTime := 0;
         currentTimeScaleOption := currentTimeScaleOption s |}
  | animation =>
      {| timeMode := static;
         simulationStartTime := simulationStartTime s;
         animationTimeScale := animationTimeScale s;
         isPaused := false;
         pausedTime := 0;
         currentTimeScaleOption := currentTimeScaleOption s |}
  end.

(** [togglePause()] *)
Definition togglePause (now : Z) (s : t) : t :=
  match timeMode s with
  | static => s
  | animation =>
      if isPaused s then
        {| timeMode := timeMode s;
           simulationStartTime := now - pausedTime s;
           animationTimeScale := animationTimeScale s;
           isPaused := false;
           pausedTime := pausedTime s;
           currentTimeScaleOption := currentTimeScaleOption s |}
      else
        {| timeMode := timeMode s;
           simulationStartTime := simulationStartTime s;
           animationTimeScale := animationTimeScale s;
           isPaused := true;
           pausedTime := now - simulationStartTime s;
           currentTimeScaleOption := currentTimeScaleOption s |}
  end.

(** The [switch] of [setTimeScaleOption]. *)
Definition scaleOfOption (option : TimeScaleOption) : Z :=
  match option with
  | hour => 60 * 60 * 1000
  | day  => 24 * 60 * 60 * 1000
  | week => 7 * 24 * 60 * 60 * 1000
  end.

(** [setTimeScaleOption(option)] *)
Definition setTimeScaleOption (now : Z) (option : TimeScaleOption) (s : t) : t :=
  let scale := scaleOfOption option in
  match timeMode s, isPaused s with
  | animation, false =>
      {| timeMode := timeMode s;
         simulationStartTime := now;
         animationTimeScale := scale;
         isPaused := isPaused s;
         pausedTime := 0;
         currentTimeScaleOption := option |}
  | _, _ =>
      {| timeMode := timeMode s;
         simulationStartTime := simulationStartTime s;
         animationTimeScale := scale;
         isPaused := isPaused s;
         pausedTime := pausedTime s;
         currentTimeScaleOption := option |}
  end.

(** *** The state machine of the specification *)

Inductive ClockState : Set :=
  | REALTIME
  | ACCELERATED_RUNNING
  | ACCELERATED_PAUSED.

Definition clockState (s : t) : ClockState :=
  match timeMode s with
  | static => REALTIME
  | animation => if isPaused s then ACCELERATED_PAUSED else ACCELERATED_RUNNING
  end.

(** Simulated milliseconds per real millisecond. *)
Definition accelerationFactor (s : t) : Z := animationTimeScale s / 1000.

(** The rate field always holds the value selected by the current option. *)
Definition scale_consistent (s : t) : Prop :=
  animationTimeScale s = scaleOfOption (currentTimeScaleOption s).

(** The calls the UI can make, each stamped with its wall-clock reading. *)
Inductive Call : Set :=
  | CallToggleTimeMode (now : Z)
  | CallTogglePause (now : Z)
  | CallSetTimeScaleOption (now : Z) (option : TimeScaleOption).

Definition exec (c : Call) (s : t) : t :=
  match c with
  | CallToggleTimeMode now => toggleTimeMode now s
  | CallTogglePause now => togglePause now s
  | CallSetTimeScaleOption now o => setTimeScaleOption now o s
  end.

Definition run (calls : list Call) (s : t) : t :=
  fold_left (fun acc c => exec c acc) calls s.

Inductive reachable : t -> Prop :=
  | reach_init : forall now, reachable (init now)
  | reach_step : forall s c, reachable s -> reachable (exec c s).

End TimeSystem.

(* ================================================================== *)
(** ** Host-language conventions *)
(* ================================================================== *)

Module JS.

Local Open Scope R_scope.

(** [v || d] on an optional number: [undefined] and [0] are falsy. *)
Definition or (v : option R) (d : R) : R :=
  match v with
  | None => d
  | Some r => if Req_dec_T r 0 then d else r
  end.

(** [Math.atan2(y, x)], by quadrant. *)
Definition atan2 (y x : R) : R :=
  if Rlt_dec 0 x then atan (y / x)
  else if Rlt_dec x 0 then
    if Rle_dec 0 y then atan (y / x) + PI else atan (y / x) - PI
  else if Rlt_dec 0 y then PI / 2
  else if Rlt_dec y 0 then - (PI / 2)
  else 0.

(** How a call ends: with its value, or by throwing. *)
Inductive outcome (A : Type) : Type :=
  | Returned (value : A)
  | Thrown (message : String.string).

Arguments Returned {A} value.
Arguments Thrown {A} message.

End JS.

(** [THREE.Vector3] *)
Record Vector3 : Type := mkVector3 { vx : R; vy : R; vz : R }.

(* ================================================================== *)
(** ** The element table *)
(* ================================================================== *)

Module CelestialData.

Local Open Scope R_scope.

(** [interface CelestialBodyData]; fields marked [?] are optional. *)
Record CelestialBodyData : Type := mkBody {
  name                : String.string;
  radius              : R;
  color               : Z;
  semiMajorAxis       : option R;
  eccentricity        : R;
  inclination         : option R;
  meanLongitude       : option R;
  longitudePerihelion : option R;
  longitudeNode       : option R;
  orbitalPeriod       : R;
  rotationPeriod      : R;
  distance            : option R;
  scaleFactor         : option R;
  axialTilt           : option R
}.

(** [interface CelestialDataCollection] *)
Record CelestialDataCollection : Type := mkCollection {
  sun : CelestialBodyData;
  mercury : CelestialBodyData;
  venus : CelestialBodyData;
  earth : CelestialBodyData;
  mars : CelestialBodyData;
  jupiter : CelestialBodyData;
  saturn : CelestialBodyData;
  uranus : CelestialBodyData;
  neptune : CelestialBodyData;
  pluto : CelestialBodyData;
  moon : CelestialBodyData
}.

(** [interface ScaleFactors] *)
Record ScaleFactors : Type := mkScale {
  sf_distance : R;
  sf_planetSize : R;
  sf_sunSize : R
}.

Definition scaleFactors : ScaleFactors :=
  {| sf_distance := 10; sf_planetSize := 0.5; sf_sunSize := 0.015 |}.

(** [new Date('2000-01-01T12:00:00Z').getTime()] *)
Definition J2000_EPOCH : R := 946728000000.

(** An orbiting body of the table: every optional element is present. *)
Definition orbiting (nm : String.string) (rad : R) (col : Z)
    (a e i L w om P rot : R) (sc : option R) (tilt : R) : CelestialBodyData :=
  {| name := nm; radius := rad; color := col;
     semiMajorAxis := Some a; eccentricity := e; inclination := Some i;
     meanLongitude := Some L; longitudePerihelion := Some w;
     longitudeNode := Some om; orbitalPeriod := P; rotationPeriod := rot;
     distance := None; scaleFactor := sc; axialTilt := Some tilt |}.

Definition celestialData : CelestialDataCollection :=
  {| sun :=
       {| name := "太阳"%string; radius := 109; color := 0xFDB813;
          semiMajorAxis := None; eccentricity := 0; inclination := None;
          meanLongitude := None; longitudePerihelion := None;
          longitudeNode := None; orbitalPeriod := 0; rotationPeriod := 25.4;
          distance := Some 0; scaleFactor := None; axialTilt := Some 7.25 |};
     mercury := orbiting "水星"%string 0.383 0x8C7853
       0.38709927 0.20563593 7.00497902 252.25032350 77.45779628 48.33076593
       87.9691 58.6462 None 0.034;
     venus := orbiting "金星"%string 0.949 0xFFC649
       0.72333566 0.00677672 3.39467605 181.97909950 131.60246718 76.67984255
       224.7008 (-243.0226) None 177.4;
     earth := orbiting "地球"%string 1 0x6B93D6
       1.00000261 0.01671123 (-0.00001531) 100.46457166 102.93768193 0.0
       365.25636 1.0 None 23.44;
     moon := orbiting "月球"%string 0.273 0xC0C0C0
       0.00257 0.0549 5.145 218.3164477 83.3532465 125.1228870
       27.321661 27.321661 (Some 1.8) 6.68;
     mars := orbiting "火星"%string 0.532 0xCD5C5C
       1.52371034 0.09339410 1.84969142 (-4.55343205) (-23.94362959) 49.55953891
       686.971 1.025957 None 25.19;
     jupiter := orbiting "木星"%string 11.21 0xD8CA9D
       5.20288700 0.04838624 1.30439695 34.39644051 14.72847983 100.47390909
       4332.59 0.41354 (Some 0.3) 3.13;
     saturn := orbiting "土星"%string 9.45 0xFAD5A5
       9.53667594 0.05386179 2.48599187 49.95424423 92.59887831 113.66242448
       10759.22 0.44401 (Some 0.35) 26.73;
     uranus := orbiting "天王星"%string 4.01 0x4FD0E3
       19.18916464 0.04725744 0.77263783 313.23810451 170.95427630 74.01692503
       30688.5 (-0.71833) (Some 0.5) 97.77;
     neptune := orbiting "海王星"%string 3.88 0x4B70DD
       30.06992276 0.00859048 1.77004347 (-55.12002969) 44.96476227 131.78422574
       60182 0.6713 (Some 0.5) 28.32;
     pluto := orbiting "冥王星"%string 0.186 0xA0522D
       39.48211675 0.24880766 17.14001206 238.92903833 224.06891629 110.30393684
       90560 6.387230 (Some 5.0) 122.53 |}.

End CelestialData.

(* ================================================================== *)
(** ** Orbital mathematics *)
(* ================================================================== *)

Module OrbitalMath.

Import CelestialData.
Local Open Scope R_scope.

(** The body of the Kepler [for] loop of [calculatePlanetPosition] and
    [calculateMoonPosition]; [iterations] counts the passes still allowed
    by [i < 10], [E] is the current [eccentricAnomaly]. *)
Fixpoint keplerLoop (iterations : nat) (eccentricity meanAnomaly E : R) : R :=
  match iterations with
  | O => E
  | S remaining =>
      let deltaE :=
        (E - eccentricity * sin E - meanAnomaly) / (1 - eccentricity * cos E) in
      let E' := E - deltaE in
      if Rlt_dec (Rabs deltaE) 1e-8 then E'
      else keplerLoop remaining eccentricity meanAnomaly E'
  end.

(** [OrbitalMath.calculatePlanetPosition(data, time)] *)
Definition calculatePlanetPosition (data : CelestialBodyData) (time : R) : Vector3 :=
  let daysSinceJ2000 := (time - J2000_EPOCH) / (1000 * 60 * 60 * 24) in
  let semiMajorAxis := JS.or (semiMajorAxis data) 0 * sf_distance scaleFactors in
  let eccentricity := JS.or (Some (eccentricity data)) 0 in
  let inclination := JS.or (inclination data) 0 * PI / 180 in
  let meanLongitudeAtEpoch := JS.or (meanLongitude data) 0 * PI / 180 in
  let longitudePerihelion := JS.or (longitudePerihelion data) 0 * PI / 180 in
  let longitudeNode := JS.or (longitudeNode data) 0 * PI / 180 in
  let meanMotion := (2 * PI) / orbitalPeriod data in
  let meanLongitude := meanLongitudeAtEpoch + meanMotion * daysSinceJ2000 in
  let meanAnomaly := meanLongitude - longitudePerihelion in
  let eccentricAnomaly := keplerLoop 10 eccentricity meanAnomaly meanAnomaly in
  let trueAnomaly :=
    2 * JS.atan2 (sqrt (1 + eccentricity) * sin (eccentricAnomaly / 2))
                 (sqrt (1 - eccentricity) * cos (eccentricAnomaly / 2)) in
  let radius := semiMajorAxis * (1 - eccentricity * cos eccentricAnomaly) in
  let argumentPerihelion := longitudePerihelion - longitudeNode in
  let u := trueAnomaly + argumentPerihelion in
  let cosU := cos u in
  let sinU := sin u in
  let cosI := cos inclination in
  let sinI := sin inclination in
  let cosO := cos longitudeNode in
  let sinO := sin longitudeNode in
  let x := radius * (cosO * cosU - sinO * sinU * cosI) in
  let y := radius * (sinO * cosU + cosO * sinU * cosI) in
  let z := radius * (sinU * sinI) in
  mkVector3 x z y.

(** [OrbitalMath.calculateRotationAngle(data, time)] *)
Definition calculateRotationAngle (data : CelestialBodyData) (time : R) : R :=
  let daysSinceJ2000 := (time - J2000_EPOCH) / (1000 * 60 * 60 * 24) in
  let rotationAngle := (daysSinceJ2000 / Rabs (rotationPeriod data)) * 2 * PI in
  if Rlt_dec 0 (rotationPeriod data) then rotationAngle else - rotationAngle.

(** The display distance of the satellite orbit inside
    [calculateMoonPosition] (its [const moonDistance]). *)
Definition calculateMoonPosition_moonDistance (moonData : CelestialBodyData) : R :=
  JS.or (semiMajorAxis moonData) 0 * sf_distance scaleFactors * 45.

(** [OrbitalMath.calculateMoonPosition(moonData, earthPosition, time)] *)
Definition calculateMoonPosition
    (moonData : CelestialBodyData) (earthPosition : Vector3) (time : R) : Vector3 :=
  let daysSinceJ2000 := (time - J2000_EPOCH) / (1000 * 60 * 60 * 24) in
  let moonDistance := calculateMoonPosition_moonDistance moonData in
  let eccentricity := JS.or (Some (eccentricity moonData)) 0 in
  let inclination := JS.or (inclination moonData) 0 * PI / 180 in
  let meanLongitudeAtEpoch := JS.or (meanLongitude moonData) 0 * PI / 180 in
  let longitudePerihelion := JS.or (longitudePerihelion moonData) 0 * PI / 180 in
  let meanMotion := (2 * PI) / orbitalPeriod moonData in
  let meanLongitude := meanLongitudeAtEpoch + meanMotion * daysSinceJ2000 in
  let meanAnomaly := meanLongitude - longitudePerihelion in
  let eccentricAnomaly := keplerLoop 10 eccentricity meanAnomaly meanAnomaly in
  let trueAnomaly :=
    2 * JS.atan2 (sqrt (1 + eccentricity) * sin (eccentricAnomaly / 2))
                 (sqrt (1 - eccentricity) * cos (eccentricAnomaly / 2)) in
  let radius := moonDistance * (1 - eccentricity * cos eccentricAnomaly) in
  let moonRelativeX := radius * cos trueAnomaly in
  let moonRelativeZ := radius * sin trueAnomaly * cos inclination in
  let moonRelativeY := radius * sin trueAnomaly * sin inclination in
  mkVector3 (vx earthPosition + moonRelativeX)
            (vy earthPosition + moonRelativeY)
            (vz earthPosition + moonRelativeZ).

(** One pass of the sampling loop of [generateOrbitPath]: the point pushed
    for loop index [i]. *)
Definition orbitPathPoint (data : CelestialBodyData) (segments i : nat) : Vector3 :=
  let semiMajorAxis := JS.or (semiMajorAxis data) 0 * sf_distance scaleFactors in
  let eccentricity := JS.or (Some (eccentricity data)) 0 in
  let inclination := JS.or (inclination data) 0 * PI / 180 in
  let longitudePerihelion := JS.or (longitudePerihelion data) 0 * PI / 180 in
  let longitudeNode := JS.or (longitudeNode data) 0 * PI / 180 in
  let argumentPerihelion := longitudePerihelion - longitudeNode in
  let trueAnomaly := (INR i / INR segments) * 2 * PI in
  let radius := semiMajorAxis * (1 - eccentricity * eccentricity) /
                (1 + eccentricity * cos trueAnomaly) in
  let u := trueAnomaly + argumentPerihelion in
  let cosU := cos u in
  let sinU := sin u in
  let cosI := cos inclination in
  let sinI := sin inclination in
  let cosO := cos longitudeNode in
  let sinO := sin longitudeNode in
  let x := radius * (cosO * cosU - sinO * sinU * cosI) in
  let y := radius * (sinO * cosU + cosO * sinU * cosI) in
  let z := radius * (sinU * sinI) in
  mkVector3 x z y.

(** The loop [for (let i = 0; i <= segments; i++) points.push(...)]:
    [remaining] is the number of indices not yet visited, [points] the
    array built so far. *)
Fixpoint orbitPathLoop (data : CelestialBodyData) (segments remaining i : nat)
    (points : list Vector3) : list Vector3 :=
  match remaining with
  | O => points
  | S remaining' =>
      orbitPathLoop data segments remaining' (S i)
        (points ++ [orbitPathPoint data segments i])
  end.

(** [OrbitalMath.generateOrbitPath(data, segments)] for a whole number of
    segments; the source's default argument is [defaultSegments]. *)
Definition generateOrbitPath (data : CelestialBodyData) (segments : nat)
    : list Vector3 :=
  orbitPathLoop data segments (S segments) 0 [].

Definition defaultSegments : nat := 256.

End OrbitalMath.

(* ================================================================== *)
(** ** Scene construction *)
(* ================================================================== *)

Module CelestialObjects.

Import CelestialData.
Local Open Scope R_scope.

(** What the kinematics needs of a [THREE.Mesh]: sphere radius, attached
    [userData] and [position]. *)
Record Mesh : Type := mkMesh {
  sphereRadius : R;
  userData : CelestialBodyData;
  position : Vector3
}.

(** The public fields of [class CelestialObjects] (asteroids are cosmetic
    and placed at random; they are left out). *)
Record t : Type := mk {
  sunMesh : Mesh;
  planets : list Mesh;
  moonMesh : Mesh;
  orbits : list (list Vector3)
}.

(** The [planetNames] array of [createPlanets] and [createOrbits], resolved
    against the table. *)
Definition planetNames (table : CelestialDataCollection) : list CelestialBodyData :=
  [mercury table; venus table; earth table; mars table; jupiter table;
   saturn table; uranus table; neptune table; pluto table].

(** [createSun()] *)
Definition createSun (table : CelestialDataCollection) : Mesh :=
  let sunRadius := radius (sun table) * sf_sunSize scaleFactors in
  {| sphereRadius := sunRadius;
     userData := sun table;
     position := mkVector3 0 0 0 |}.

(** The callback of [planetNames.forEach] in [createPlanets()]. *)
Definition createPlanet (data : CelestialBodyData) : Mesh :=
  let sizeAdjustment := JS.or (scaleFactor data) 1 in
  let radius := radius data * sf_planetSize scaleFactors * sizeAdjustment in
  let distance := JS.or (semiMajorAxis data) 0 * sf_distance scaleFactors in
  {| sphereRadius := radius;
     userData := data;
     position := mkVector3 distance 0 0 |}.

(** [createPlanets()] *)
Definition createPlanets (table : CelestialDataCollection) : list Mesh :=
  map createPlanet (planetNames table).

(** The display distance of the satellite orbit inside [createMoon]
    (its [const moonDistance]). *)
Definition createMoon_moonDistance (moonData : CelestialBodyData) : R :=
  JS.or (semiMajorAxis moonData) 0 * sf_distance scaleFactors * 30.

(** [createMoon()] *)
Definition createMoon (table : CelestialDataCollection) : Mesh :=
  let moonData := moon table in
  let radius := radius moonData * sf_planetSize scaleFactors in
  let earthDistance :=
    JS.or (semiMajorAxis (earth table)) 0 * sf_distance scaleFactors in
  let moonDistance := createMoon_moonDistance moonData in
  {| sphereRadius := radius;
     userData := moonData;
     position := mkVector3 (earthDistance + moonDistance) 0 0 |}.

(** [createOrbits()] with [createRealisticOrbit(data)] inlined. *)
Definition createOrbits (table : CelestialDataCollection) : list (list Vector3) :=
  map (fun data => OrbitalMath.generateOrbitPath data 256) (planetNames table).

(** [new CelestialObjects(renderSystem)]: the constructor runs the creation
    steps in order; none of them has a [throw] or a check on its path. *)
Definition load (table : CelestialDataCollection) : JS.outcome t :=
  JS.Returned
    {| sunMesh := createSun table;
       planets := createPlanets table;
       moonMesh := createMoon table;
       orbits := createOrbits table |}.

End CelestialObjects.

(* ================================================================== *)
(** ** The specification's vocabulary *)
(* ================================================================== *)

Module Spec.

Import CelestialData.
Local Open Scope R_scope.

(** Invariant of the orbital elements of an orbiting body. *)
Definition valid_elements (data : CelestialBodyData) : Prop :=
  (0 <= eccentricity data < 1) /\ 0 < orbitalPeriod data.

(** The two configuration errors named by the specification. *)
Definition malformed (data : CelestialBodyData) : Prop :=
  ~ (0 <= eccentricity data < 1) \/ orbitalPeriod data = 0.

(** Every body of a table other than the central star. *)
Definition nonCentralBodies (table : CelestialDataCollection)
    : list CelestialBodyData :=
  [mercury table; venus table; earth table; mars table; jupiter table;
   saturn table; uranus table; neptune table; pluto table; moon table].

Definition ONE_DAY : R := 86400000.

(** Step 1: days elapsed since the epoch. *)
Definition daysSinceEpoch (instant : R) : R := (instant - J2000_EPOCH) / ONE_DAY.

Definition radians (degrees : R) : R := degrees * PI / 180.

Definition orDefault (v : option R) (d : R) : R :=
  match v with Some r => r | None => d end.

(** The elements as the engine reads them: angles in radians, the
    semi-major axis in display units. *)
Definition a_display (data : CelestialBodyData) : R :=
  orDefault (semiMajorAxis data) 0 * sf_distance scaleFactors.
Definition inclination_rad (data : CelestialBodyData) : R :=
  radians (orDefault (inclination data) 0).
Definition meanLongitudeAtEpoch_rad (data : CelestialBodyData) : R :=
  radians (orDefault (meanLongitude data) 0).
Definition longitudeOfPerihelion_rad (data : CelestialBodyData) : R :=
  radians (orDefault (longitudePerihelion data) 0).
Definition longitudeOfAscendingNode_rad (data : CelestialBodyData) : R :=
  radians (orDefault (longitudeNode data) 0).

(** Steps 2-4. *)
Definition meanMotion (data : CelestialBodyData) : R := 2 * PI / orbitalPeriod data.

Definition meanAnomaly (data : CelestialBodyData) (instant : R) : R :=
  meanLongitudeAtEpoch_rad data + meanMotion data * daysSinceEpoch instant
  - longitudeOfPerihelion_rad data.

(** Step 5: the Newton-Raphson correction, the iterates [E_0 = M],
    [E_(k+1) = E_k - correction E_k], and the stopping rule. *)
Definition newtonCorrection (e M E : R) : R :=
  (E - e * sin E - M) / (1 - e * cos E).

Fixpoint newtonIterate (e M : R) (k : nat) : R :=
  match k with
  | O => M
  | S k' => newtonIterate e M k' - newtonCorrection e M (newtonIterate e M k')
  end.

(** [E] is the iterate at which the solve stops: the first one reached by
    a correction smaller than [1e-8], and the tenth if there is none. *)
Definition keplerSolution (e M E : R) : Prop :=
  exists n : nat,
    (1 <= n <= 10)%nat /\
    E = newtonIterate e M n /\
    (forall k, (S k < n)%nat ->
       ~ Rabs (newtonCorrection e M (newtonIterate e M k)) < 1e-8) /\
    (n = 10%nat \/
     Rabs (newtonCorrection e M (newtonIterate e M (n - 1))) < 1e-8).

(** Step 6. *)
Definition trueAnomaly (e E : R) : R :=
  2 * JS.atan2 (sqrt (1 + e) * sin (E / 2)) (sqrt (1 - e) * cos (E / 2)).

(** Steps 8-10: orientation of a point at radius [r] and true anomaly [nu]
    in the ecliptic frame, remapped to scene space as [(x, z, y)]. *)
Definition orient (data : CelestialBodyData) (r nu : R) : Vector3 :=
  let u := nu + (longitudeOfPerihelion_rad data - longitudeOfAscendingNode_rad data) in
  let i := inclination_rad data in
  let Om := longitudeOfAscendingNode_rad data in
  let x := r * (cos Om * cos u - sin Om * sin u * cos i) in
  let y := r * (sin Om * cos u + cos Om * sin u * cos i) in
  let z := r * (sin u * sin i) in
  mkVector3 x z y.

(** Steps 6-10 from a given eccentric anomaly. *)
Definition positionAt (data : CelestialBodyData) (E : R) : Vector3 :=
  let e := eccentricity data in
  orient data (a_display data * (1 - e * cos E)) (trueAnomaly e E).

(** The orbit-path sample at true anomaly [nu]. *)
Definition pathPoint (data : CelestialBodyData) (nu : R) : Vector3 :=
  let e := eccentricity data in
  orient data (a_display data * (1 - e * e) / (1 + e * cos nu)) nu.

(** Square of the Euclidean distance between two scene points. *)
Definition sqDistance (p q : Vector3) : R :=
  (vx p - vx q) * (vx p - vx q) + (vy p - vy q) * (vy p - vy q)
  + (vz p - vz q) * (vz p - vz q).

(** Rotation model. *)
Definition rotationAngle (data : CelestialBodyData) (instant : R) : R :=
  daysSinceEpoch instant / Rabs (rotationPeriod data) * (2 * PI).

End Spec.

(* ================================================================== *)
(** ** Concrete scenarios *)
(* ================================================================== *)

Module Scenario.

Import CelestialData.

(** A session started at wall-clock time [T0] (milliseconds since the Unix
    epoch): accelerated mode is entered at once, and the clock is paused
    one real second later. *)
Definition T0 : Z := 1700000000000.

Definition runningClock : TimeSystem.t :=
  TimeSystem.run [TimeSystem.CallToggleTimeMode T0] (TimeSystem.init T0).

Definition pausedClock : TimeSystem.t :=
  TimeSystem.run
    [TimeSystem.CallToggleTimeMode T0; TimeSystem.CallTogglePause (T0 + 1000)]
    (TimeSystem.init T0).

(** [data] with its eccentricity replaced. *)
Definition withEccentricity (e : R) (data : CelestialBodyData) : CelestialBodyData :=
  {| name := name data; radius := radius data; color := color data;
     semiMajorAxis := semiMajorAxis data; eccentricity := e;
     inclination := inclination data; meanLongitude := meanLongitude data;
     longitudePerihelion := longitudePerihelion data;
     longitudeNode := longitudeNode data; orbitalPeriod := orbitalPeriod data;
     rotationPeriod := rotationPeriod data; distance := distance data;
     scaleFactor := scaleFactor data; axialTilt := axialTilt data |}.

(** The shipped table with a hyperbolic eccentricity for Mercury. *)
Definition malformedTable : CelestialDataCollection :=
  {| sun := sun celestialData;
     mercury := withEccentricity 1.5 (mercury celestialData);
     venus := venus celestialData;
     earth := earth celestialData;
     mars := mars celestialData;
     jupiter := jupiter celestialData;
     saturn := saturn celestialData;
     uranus := uranus celestialData;
     neptune := neptune celestialData;
     pluto := pluto celestialData;
     moon := moon celestialData |}.

(** A circular, uninclined orbit of one astronomical unit and one Julian
    year, all longitudes zero. *)
Definition circularBody : CelestialBodyData :=
  orbiting "circular"%string 1 0 1.0 0 0 0 0 0 365.25 1 None 0.

(** One full sidereal rotation of Venus after the epoch. *)
Definition venusTurn : R := (J2000_EPOCH + 243.0226 * 86400000)%R.

End Scenario.

(* ================================================================== *)
(** ** The asteroid belt *)
(* ================================================================== *)

Module AsteroidBelt.

Local Open Scope R_scope.

(** The [userData] bag attached to an asteroid by [createAsteroidBelt]. *)
Record AsteroidUserData : Type := mkAsteroidUserData {
  angle : R;
  initialAngle : R;
  distance : R;
  heightVariation : R;
  radiusVariation : R;
  rotationSpeed : R
}.

(** An asteroid mesh: sphere radius, [userData], [position] and the two
    Euler angles the update touches. *)
Record Asteroid : Type := mkAsteroid {
  asteroidSize : R;
  userData : AsteroidUserData;
  position : Vector3;
  rotation_x : R;
  rotation_y : R
}.

(** The six readings of [Math.random()] taken for one asteroid, in call
    order. *)
Record Draws : Type := mkDraws {
  draw_angle : R;
  draw_distance : R;
  draw_height : R;
  draw_radius : R;
  draw_size : R;
  draw_speed : R
}.

(** [Math.random()] returns a number in [0, 1). *)
Definition unit_draw (r : R) : Prop := 0 <= r < 1.

Definition unit_draws (d : Draws) : Prop :=
  unit_draw (draw_angle d) /\ unit_draw (draw_distance d) /\
  unit_draw (draw_height d) /\ unit_draw (draw_radius d) /\
  unit_draw (draw_size d) /\ unit_draw (draw_speed d).

(** One pass of the loop of [createAsteroidBelt()]. *)
Definition createAsteroid (d : Draws) : Asteroid :=
  let innerRadius := 2.2 * CelestialData.sf_distance CelestialData.scaleFactors in
  let outerRadius := 3.2 * CelestialData.sf_distance CelestialData.scaleFactors in
  let angle := draw_angle d * 2 * PI in
  let distance := innerRadius + draw_distance d * (outerRadius - innerRadius) in
  let heightVariation := (draw_height d - 0.5) * 0.5 in
  let radiusVariation := (draw_radius d - 0.5) * 0.3 in
  let x := (distance + radiusVariation) * cos angle in
  let z := (distance + radiusVariation) * sin angle in
  let y := heightVariation in
  let asteroidSize := 0.04 + draw_size d * 0.06 in
  {| asteroidSize := asteroidSize;
     userData :=
       {| angle := angle; initialAngle := angle; distance := distance;
          heightVariation := heightVariation;
          radiusVariation := radiusVariation;
          rotationSpeed := 0.0002 + draw_speed d * 0.0003 |};
     position := mkVector3 x y z;
     rotation_x := 0;
     rotation_y := 0 |}.

(** [createAsteroidBelt()]: one asteroid per group of draws (the source
    takes [asteroidCount = 1200] groups). *)
Definition createAsteroidBelt (draws : list Draws) : list Asteroid :=
  map createAsteroid draws.

(** The callback of [this.asteroids.forEach] in [updateAsteroids]. *)
Definition updateAsteroid (currentTime : R) (timeMode : TimeSystem.TimeMode)
    (asteroid : Asteroid) : Asteroid :=
  let data := userData asteroid in
  let angle' :=
    match timeMode with
    | TimeSystem.animation =>
        let daysSinceEpoch := currentTime / (1000 * 60 * 60 * 24) in
        let orbitalPeriod := 4 * 365 in
        (daysSinceEpoch / orbitalPeriod) * 2 * PI + initialAngle data
    | TimeSystem.static => angle data + rotationSpeed data
    end in
  let x := (distance data + radiusVariation data) * cos angle' in
  let z := (distance data + radiusVariation data) * sin angle' in
  let y := heightVariation data in
  {| asteroidSize := asteroidSize asteroid;
     userData :=
       {| angle := angle'; initialAngle := initialAngle data;
          distance := distance data;
          heightVariation := heightVariation data;
          radiusVariation := radiusVariation data;
          rotationSpeed := rotationSpeed data |};
     position := mkVector3 x y z;
     rotation_x := rotation_x asteroid + 0.002;
     rotation_y := rotation_y asteroid + 0.001 |}.

(** [updateAsteroids(currentTime, timeMode)] *)
Definition updateAsteroids (currentTime : R) (timeMode : TimeSystem.TimeMode)
    (asteroids : list Asteroid) : list Asteroid :=
  map (updateAsteroid currentTime timeMode) asteroids.

(** Distance of a scene point from the vertical axis through the sun,
    squared. *)
Definition sqAxisDistance (p : Vector3) : R := vx p * vx p + vz p * vz p.

(** An asteroid on the circle of radius [rho] at height [h]. *)
Definition onBeltCircle (rho h : R) (a : Asteroid) : Prop :=
  distance (userData a) + radiusVariation (userData a) = rho /\
  heightVariation (userData a) = h /\
  vy (position a) = h /\
  sqAxisDistance (position a) = rho * rho.

(** A sequence of updates, each with its clock reading and time mode. *)
Definition updateAll (updates : list (R * TimeSystem.TimeMode))
    (asteroid : Asteroid) : Asteroid :=
  fold_left (fun a u => updateAsteroid (fst u) (snd u) a) updates asteroid.

End AsteroidBelt.

(* ================================================================== *)
(** ** The per-frame driver *)
(* ================================================================== *)

Module SolarSystem.

Import CelestialData.
Local Open Scope R_scope.

(** A mesh of the scene together with its [rotation.y]. *)
Record Body : Type := mkSceneBody {
  mesh : CelestialObjects.Mesh;
  rotation_y : R
}.

(** A freshly created mesh: [THREE.Object3D] starts unrotated. *)
Definition fresh (m : CelestialObjects.Mesh) : Body :=
  {| mesh := m; rotation_y := 0 |}.

Definition userData (b : Body) : CelestialBodyData :=
  CelestialObjects.userData (mesh b).

Definition position (b : Body) : Vector3 :=
  CelestialObjects.position (mesh b).

(** [mesh.position.copy(p)] *)
Definition moveTo (p : Vector3) (m : CelestialObjects.Mesh) : CelestialObjects.Mesh :=
  {| CelestialObjects.sphereRadius := CelestialObjects.sphereRadius m;
     CelestialObjects.userData := CelestialObjects.userData m;
     CelestialObjects.position := p |}.

(** The objects the driver moves each frame. *)
Record Scene : Type := mkScene {
  sun : option Body;
  planets : list Body;
  moon : option Body;
  asteroids : list AsteroidBelt.Asteroid
}.

(** The scene right after [new CelestialObjects(renderSystem)], given the
    random draws of the asteroid belt. *)
Definition initialScene (table : CelestialDataCollection)
    (draws : list AsteroidBelt.Draws) : Scene :=
  {| sun := Some (fresh (CelestialObjects.createSun table));
     planets := map fresh (CelestialObjects.createPlanets table);
     moon := Some (fresh (CelestialObjects.createMoon table));
     asteroids := AsteroidBelt.createAsteroidBelt draws |}.

(** The callback of [planets.forEach] in [updatePlanets(currentTime)];
    [closeView] is [closeViewSystem.isInCloseViewMode()]. *)
Definition updatePlanet (currentTime : R) (closeView : bool) (planet : Body) : Body :=
  let planetData := userData planet in
  let newPosition := OrbitalMath.calculatePlanetPosition planetData currentTime in
  {| mesh := moveTo newPosition (mesh planet);
     rotation_y :=
       if negb closeView
       then OrbitalMath.calculateRotationAngle planetData currentTime
       else rotation_y planet |}.

(** [updatePlanets(currentTime)] *)
Definition updatePlanets (currentTime : R) (closeView : bool)
    (planets : list Body) : list Body :=
  map (updatePlanet currentTime closeView) planets.

(** [CelestialObjects.getEarthPlanet()] *)
Definition getEarthPlanet (planets : list Body) : option Body :=
  find (fun p => String.eqb (name (userData p)) "地球"%string) planets.

(** [updateMoon(currentTime)], run on the planets as they stand when it is
    called. *)
Definition updateMoon (currentTime : R) (closeView : bool)
    (planets : list Body) (moon : option Body) : option Body :=
  match moon with
  | None => None
  | Some moonBody =>
      match getEarthPlanet planets with
      | None => Some moonBody
      | Some earthPlanet =>
          let moonData := userData moonBody in
          let newPosition :=
            OrbitalMath.calculateMoonPosition moonData (position earthPlanet)
              currentTime in
          Some
            {| mesh := moveTo newPosition (mesh moonBody);
               rotation_y :=
                 if negb closeView
                 then OrbitalMath.calculateRotationAngle moonData currentTime
                 else rotation_y moonBody |}
      end
  end.

(** [updateSun(currentTime)]; the period is read from the global table. *)
Definition updateSun (currentTime : R) (closeView : bool) (sun : option Body)
    : option Body :=
  match sun with
  | None => None
  | Some sunBody =>
      if negb closeView then
        let daysSinceEpoch := currentTime / (1000 * 60 * 60 * 24) in
        Some
          {| mesh := mesh sunBody;
             rotation_y :=
               (daysSinceEpoch / rotationPeriod (CelestialData.sun celestialData))
               * 2 * PI |}
      else Some sunBody
  end.

(** The body of [animate()] from reading the clock to the asteroid update:
    [now] is the wall clock of the frame, [clock] the time system.  The
    distance labels, [closeViewSystem.update()] (which acts only in close
    view, on the camera and on the spin of the viewed body) and the
    rendering are not part of the scene modelled here. *)
Definition animate (now : Z) (clock : TimeSystem.t) (closeView : bool)
    (scene : Scene) : Scene :=
  let currentTime := IZR (TimeSystem.getSimulationTime now clock) in
  let planets' := updatePlanets currentTime closeView (planets scene) in
  let moon' := updateMoon currentTime closeView planets' (moon scene) in
  let sun' := updateSun currentTime closeView (sun scene) in
  let asteroids' :=
    AsteroidBelt.updateAsteroids currentTime (TimeSystem.timeMode clock)
      (asteroids scene) in
  {| sun := sun'; planets := planets'; moon := moon'; asteroids := asteroids' |}.

End SolarSystem.

(* ================================================================== *)
(** ** Sample bodies *)
(* ================================================================== *)

Module Sample.

Import CelestialData.

(** An eccentric, inclined orbit whose mean longitude at epoch equals its
    longitude of perihelion: the body is at perihelion at the epoch. *)
Definition eccentricBody : CelestialBodyData :=
  orbiting "eccentric"%string 1 0 2 0.5 10 30 30 45 1000 (-3) None 20.


(** The scene origin, where the sun sits. *)
Definition origin : Vector3 := mkVector3 0 0 0.

(** Draws in the middle of their range. *)
Definition middleDraws : AsteroidBelt.Draws :=
  AsteroidBelt.mkDraws 0.5 0.5 0.5 0.5 0.5 0.5.

End Sample.

(* ================================================================== *)
(** ** The round trip of the specification *)
(* ================================================================== *)

Module RoundTrip.

Import CelestialData.
Local Open Scope R_scope.



(** A long-period comet on a nearly parabolic orbit: one hundred
    astronomical units, a period of a thousand Julian years, all angles
    zero. *)
Definition comet : CelestialBodyData :=
  orbiting "comet"%string 1 0 100 0.999999999975 0 0 0 0 365250 1 None 0.

(** The true anomaly of sample 127 of its 256-segment path, just short of
    aphelion; the eccentric anomaly there; and the instant, about 160 ms
    after the epoch, at which the comet is there. *)
Definition cometTrueAnomaly : R := INR 127 / INR 256 * (2 * PI).

Definition cometEccentricAnomaly : R :=
  acos ((cos cometTrueAnomaly + eccentricity comet)
        / (1 + eccentricity comet * cos cometTrueAnomaly)).


End RoundTrip.

(* ================================================================== *)
(** ** Properties of the simulation clock *)
(* ================================================================== *)

Section Clock.

Import TimeSystem.
Local Open Scope Z_scope.

Lemma scaleOfOption_multiple (o : TimeScaleOption) :
  scaleOfOption o = 1000 * (scaleOfOption o / 1000).
Proof. destruct o; reflexivity. Qed.

Lemma scaleOfOption_factor_gt_1 (o : TimeScaleOption) : 1 < scaleOfOption o / 1000.
Proof. destruct o; vm_compute; reflexivity. Qed.

Lemma scaleOfOption_div_exact (o : TimeScaleOption) (d : Z) :
  d * scaleOfOption o / 1000 = d * (scaleOfOption o / 1000).
Proof.
  rewrite (scaleOfOption_multiple o) at 1.
  replace (d * (1000 * (scaleOfOption o / 1000)))
    with (d * (scaleOfOption o / 1000) * 1000) by ring.
  apply Z.div_mul. discriminate.
Qed.

Lemma scaleOfOption_factor_inj (o1 o2 : TimeScaleOption) :
  scaleOfOption o1 / 1000 = scaleOfOption o2 / 1000 ->
  scaleOfOption o1 = scaleOfOption o2.
Proof.
  intros H. rewrite (scaleOfOption_multiple o1), (scaleOfOption_multiple o2).
  now rewrite H.
Qed.

Lemma init_consistent (now : Z) : scale_consistent (init now).
Proof. reflexivity. Qed.

Lemma exec_consistent (c : Call) (s : t) :
  scale_consistent s -> scale_consistent (exec c s).
Proof.
  unfold scale_consistent.
  destruct c as [now | now | now o]; cbn [exec]; intros H.
  - unfold toggleTimeMode. destruct (timeMode s); exact H.
  - unfold togglePause. destruct (timeMode s); [exact H|].
    destruct (isPaused s); exact H.
  - unfold setTimeScaleOption.
    destruct (timeMode s), (isPaused s); reflexivity.
Qed.

Lemma reachable_consistent (s : t) : reachable s -> scale_consistent s.
Proof.
  induction 1 as [now | s c _ IH].
  - apply init_consistent.
  - now apply exec_consistent.
Qed.

Lemma run_reachable (calls : list Call) (s : t) :
  reachable s -> reachable (run calls s).
Proof.
  revert s. induction calls as [| c calls IH]; intros s Hs; cbn.
  - exact Hs.
  - apply IH. now constructor.
Qed.

(** With a consistent rate the division by 1000 is exact: the integer
    quotient is the product with the acceleration factor. *)
Lemma scale_div_exact (s : t) (d : Z) :
  scale_consistent s ->
  d * animationTimeScale s / 1000 = d * accelerationFactor s.
Proof.
  unfold scale_consistent, accelerationFactor. intros ->.
  apply scaleOfOption_div_exact.
Qed.

Lemma accelerationFactor_gt_1 (s : t) :
  scale_consistent s -> 1 < accelerationFactor s.
Proof.
  unfold scale_consistent, accelerationFactor. intros ->.
  apply scaleOfOption_factor_gt_1.
Qed.

Lemma clockState_paused (s : t) :
  clockState s = ACCELERATED_PAUSED <->
  timeMode s = animation /\ isPaused s = true.
Proof.
  unfold clockState. destruct (timeMode s), (isPaused s); intuition congruence.
Qed.

Lemma clockState_running (s : t) :
  clockState s = ACCELERATED_RUNNING <->
  timeMode s = animation /\ isPaused s = false.
Proof.
  unfold clockState. destruct (timeMode s), (isPaused s); intuition congruence.
Qed.

Lemma getSimulationTime_paused (now : Z) (s : t) :
  scale_consistent s ->
  clockState s = ACCELERATED_PAUSED ->
  getSimulationTime now s =
    simulationStartTime s + pausedTime s * accelerationFactor s.
Proof.
  intros Hc Hp. apply clockState_paused in Hp as [Hm Hpz].
  unfold getSimulationTime. rewrite Hm, Hpz.
  now rewrite scale_div_exact.
Qed.

Lemma getSimulationTime_running (now : Z) (s : t) :
  scale_consistent s ->
  clockState s = ACCELERATED_RUNNING ->
  getSimulationTime now s =
    simulationStartTime s
    + (now - simulationStartTime s) * accelerationFactor s.
Proof.
  intros Hc Hp. apply clockState_running in Hp as [Hm Hpz].
  unfold getSimulationTime. rewrite Hm, Hpz. cbv zeta.
  now rewrite scale_div_exact.
Qed.

(** Pausing is continuous: the frozen value is the running value at the
    instant of the call. *)
Lemma pause_continuous (now : Z) (s : t) :
  clockState s = ACCELERATED_RUNNING ->
  clockState (togglePause now s) = ACCELERATED_PAUSED /\
  getSimulationTime now (togglePause now s) = getSimulationTime now s.
Proof.
  intros Hr. apply clockState_running in Hr as [Hm Hp].
  destruct s as [m st sc p pt o]; cbn in Hm, Hp; subst m p.
  split; reflexivity.
Qed.

(** Resuming at wall-clock time [now] moves the anchor, and with it the
    simulated instant, by the wall-clock length of the pause. *)
Lemma resume_offset (now : Z) (s : t) :
  scale_consistent s ->
  clockState s = ACCELERATED_PAUSED ->
  clockState (togglePause now s) = ACCELERATED_RUNNING /\
  getSimulationTime now (togglePause now s) =
    getSimulationTime now s
    + (now - (simulationStartTime s + pausedTime s)).
Proof.
  intros Hc Hp. rewrite (getSimulationTime_paused now s Hc Hp).
  apply clockState_paused in Hp as [Hm Hpz].
  pose proof (scale_div_exact s (now - (now - pausedTime s)) Hc) as Hd.
  destruct s as [m st sc p pt o]; cbn in Hm, Hpz, Hd |- *; subst m p.
  split; [reflexivity|].
  unfold getSimulationTime; cbn. rewrite Hd. ring.
Qed.

(** Resume at [now], pause again [delta] later: the new frozen instant. *)
Lemma repause_advance (now delta : Z) (s : t) :
  scale_consistent s ->
  clockState s = ACCELERATED_PAUSED ->
  let s2 := togglePause (now + delta) (togglePause now s) in
  clockState s2 = ACCELERATED_PAUSED /\
  getSimulationTime (now + delta) s2 =
    getSimulationTime now s + delta * accelerationFactor s
    + (now - (simulationStartTime s + pausedTime s)).
Proof.
  intros Hc Hp s2. rewrite (getSimulationTime_paused now s Hc Hp).
  apply clockState_paused in Hp as [Hm Hpz].
  pose proof (scale_div_exact s (now + delta - (now - pausedTime s)) Hc) as Hd.
  subst s2.
  destruct s as [m st sc p pt o]; cbn in Hm, Hpz, Hd |- *; subst m p.
  split; [reflexivity|].
  unfold getSimulationTime; cbn. rewrite Hd. ring.
Qed.

(** Changing the rate while running restarts the simulated instant at
    the wall clock. *)
Lemma setTimeScaleOption_running (now : Z) (o : TimeScaleOption) (s : t) :
  clockState s = ACCELERATED_RUNNING ->
  let s' := setTimeScaleOption now o s in
  clockState s' = ACCELERATED_RUNNING /\
  simulationStartTime s' = now /\
  pausedTime s' = 0 /\
  animationTimeScale s' = scaleOfOption o /\
  getSimulationTime now s' = now.
Proof.
  intros Hr s'. apply clockState_running in Hr as [Hm Hp].
  subst s'.
  destruct s as [m st sc p pt o']; cbn in Hm, Hp |- *; subst m p.
  repeat split.
  unfold getSimulationTime; cbn. rewrite Z.sub_diag. cbn. ring.
Qed.

(** The size of that restart: the reading falls by the simulated time run
    up since the anchor, less the real time elapsed. *)
Lemma setTimeScaleOption_running_jump (now : Z) (o : TimeScaleOption) (s : t) :
  scale_consistent s ->
  clockState s = ACCELERATED_RUNNING ->
  getSimulationTime now s - getSimulationTime now (setTimeScaleOption now o s)
    = (now - simulationStartTime s) * (accelerationFactor s - 1) /\
  (now <> simulationStartTime s ->
   getSimulationTime now (setTimeScaleOption now o s) <> getSimulationTime now s).
Proof.
  intros Hc Hr.
  destruct (setTimeScaleOption_running now o s Hr) as (_ & _ & _ & _ & Hafter).
  rewrite Hafter, (getSimulationTime_running now s Hc Hr).
  pose proof (accelerationFactor_gt_1 s Hc) as Hf.
  split; [ring|]. intros Hne Heq.
  assert (Hz : (now - simulationStartTime s) * (accelerationFactor s - 1) = 0)
    by lia.
  apply Z.mul_eq_0 in Hz. lia.
Qed.

End Clock.

(* ================================================================== *)
(** ** Claims about the simulation clock *)
(* ================================================================== *)

Section ClockClaims.

Import TimeSystem.
Local Open Scope Z_scope.

(** C5.  In ACCELERATED-PAUSED, [getSimulationTime] returns
    [simulationStartTime + pausedTime * accelerationFactor]; the result does
    not depend on the wall clock, so any two calls made on the same state
    return the same frozen value. *)
Theorem C5_paused_value_is_frozen (s : t) :
  scale_consistent s ->
  clockState s = ACCELERATED_PAUSED ->
  (forall now,
     getSimulationTime now s =
       simulationStartTime s + pausedTime s * accelerationFactor s) /\
  (forall now1 now2, getSimulationTime now1 s = getSimulationTime now2 s).
Proof.
  intros Hc Hp. split.
  - intros now. now apply getSimulationTime_paused.
  - intros now1 now2.
    now rewrite !(getSimulationTime_paused _ s Hc Hp).
Qed.

Lemma C5_paused_value_is_frozen_witness :
  scale_consistent Scenario.pausedClock /\
  clockState Scenario.pausedClock = ACCELERATED_PAUSED /\
  (forall now,
     getSimulationTime now Scenario.pausedClock =
       simulationStartTime Scenario.pausedClock
       + pausedTime Scenario.pausedClock * accelerationFactor Scenario.pausedClock) /\
  (forall now1 now2,
     getSimulationTime now1 Scenario.pausedClock =
     getSimulationTime now2 Scenario.pausedClock).
Proof.
  split; [reflexivity|]. split; [reflexivity|].
  apply (C5_paused_value_is_frozen Scenario.pausedClock); reflexivity.
Defined.

(** C10.  [setTimeScaleOption] called in ACCELERATED-PAUSED leaves the mode,
    the paused flag, the anchor and the paused offset as they were; the
    frozen instant becomes anchor + offset * new factor, so its distance
    from the anchor is rescaled in the ratio of the two factors, and the
    frozen instant changes whenever the offset is non-zero and the rate is
    a different one. *)
Theorem C10_rate_change_while_paused (now : Z) (o : TimeScaleOption) (s : t) :
  scale_consistent s ->
  clockState s = ACCELERATED_PAUSED ->
  let s' := setTimeScaleOption now o s in
  timeMode s' = timeMode s /\
  isPaused s' = isPaused s /\
  simulationStartTime s' = simulationStartTime s /\
  pausedTime s' = pausedTime s /\
  accelerationFactor s' = scaleOfOption o / 1000 /\
  (forall now',
     getSimulationTime now' s' =
       simulationStartTime s + pausedTime s * accelerationFactor s') /\
  (forall now',
     (getSimulationTime now' s' - simulationStartTime s) * accelerationFactor s =
     (getSimulationTime now' s - simulationStartTime s) * accelerationFactor s') /\
  (pausedTime s <> 0 ->
   scaleOfOption o <> animationTimeScale s ->
   forall now', getSimulationTime now' s' <> getSimulationTime now' s).
Proof.
  intros Hc Hp s'.
  assert (Hfr : timeMode s' = timeMode s /\ isPaused s' = isPaused s /\
                simulationStartTime s' = simulationStartTime s /\
                pausedTime s' = pausedTime s /\
                animationTimeScale s' = scaleOfOption o /\
                currentTimeScaleOption s' = o).
  { subst s'. apply clockState_paused in Hp as [Hm Hpz].
    unfold setTimeScaleOption. rewrite Hm, Hpz. cbn.
    repeat (split; [reflexivity|]). reflexivity. }
  destruct Hfr as (Hm' & Hp' & Hs' & Hpt' & Hsc' & Ho').
  assert (Hc' : scale_consistent s').
  { unfold scale_consistent. now rewrite Hsc', Ho'. }
  assert (Hps' : clockState s' = ACCELERATED_PAUSED).
  { unfold clockState in *. now rewrite Hm', Hp'. }
  assert (Hval : forall now',
             getSimulationTime now' s' =
               simulationStartTime s + pausedTime s * accelerationFactor s').
  { intros now'. rewrite (getSimulationTime_paused now' s' Hc' Hps').
    now rewrite Hs', Hpt'. }
  repeat split; try assumption.
  - unfold accelerationFactor. now rewrite Hsc'.
  - intros now'. rewrite Hval, (getSimulationTime_paused now' s Hc Hp). ring.
  - intros Hnz Hne now' Heq.
    rewrite Hval, (getSimulationTime_paused now' s Hc Hp) in Heq.
    assert (Hf : accelerationFactor s' = accelerationFactor s).
    { apply (Z.mul_reg_l _ _ (pausedTime s)); [assumption | lia]. }
    apply Hne. unfold accelerationFactor in Hf. rewrite Hsc' in Hf.
    rewrite Hc in Hf |- *. now apply scaleOfOption_factor_inj.
Qed.

Lemma C10_rate_change_while_paused_witness :
  let s := Scenario.pausedClock in
  let s' := setTimeScaleOption (Scenario.T0 + 5000) hour s in
  clockState s' = ACCELERATED_PAUSED /\
  simulationStartTime s' = Scenario.T0 /\
  pausedTime s' = 1000 /\
  getSimulationTime (Scenario.T0 + 9000) s = Scenario.T0 + 604800000 /\
  getSimulationTime (Scenario.T0 + 9000) s' = Scenario.T0 + 3600000 /\
  getSimulationTime (Scenario.T0 + 9000) s' <> getSimulationTime (Scenario.T0 + 9000) s.
Proof.
  intros s s'.
  split; [reflexivity|]. split; [reflexivity|]. split; [reflexivity|].
  split; [reflexivity|]. split; [reflexivity|].
  assert (Hc : scale_consistent s) by reflexivity.
  assert (Hp : clockState s = ACCELERATED_PAUSED) by reflexivity.
  destruct (C10_rate_change_while_paused (Scenario.T0 + 5000) hour s Hc Hp)
    as (_ & _ & _ & _ & _ & _ & _ & Hne).
  apply Hne; vm_compute; discriminate.
Defined.

(** C1 (evaluation).  The paused clock of the scenario holds the frozen
    instant [T0 + 604800000].  Resumed five real seconds later it reads
    [5000] ms more than the frozen instant at the very moment of resuming,
    and paused again two real seconds after that it has advanced by
    [2000 * accelerationFactor + 5000], not by [2000 * accelerationFactor]. *)
Theorem C1_resume_shifts_by_pause_length :
  let s := Scenario.pausedClock in
  let tResume := Scenario.T0 + 6000 in
  let s1 := togglePause tResume s in
  let s2 := togglePause (tResume + 2000) s1 in
  reachable s /\
  clockState s = ACCELERATED_PAUSED /\
  clockState s1 = ACCELERATED_RUNNING /\
  clockState s2 = ACCELERATED_PAUSED /\
  accelerationFactor s = 604800 /\
  getSimulationTime tResume s = Scenario.T0 + 604800000 /\
  getSimulationTime tResume s1 = Scenario.T0 + 604800000 + 5000 /\
  getSimulationTime (tResume + 2000) s2 =
    getSimulationTime tResume s + 2000 * accelerationFactor s + 5000.
Proof.
  cbv zeta. split.
  - unfold Scenario.pausedClock. apply run_reachable, reach_init.
  - repeat split; reflexivity.
Qed.

(** C2 (evaluation).  The running clock of the scenario, ten real seconds
    into accelerated mode, shows an instant ten simulated weeks after [T0].
    A call of [setTimeScaleOption] at that moment re-anchors to the wall
    clock with zero offset, and [getSimulationTime] drops back to the wall
    clock: the reading just after the call differs from the one just
    before it. *)
Theorem C2_rate_change_while_running_jumps :
  let s := Scenario.runningClock in
  let now := Scenario.T0 + 10000 in
  let s' := setTimeScaleOption now day s in
  reachable s /\
  clockState s = ACCELERATED_RUNNING /\
  clockState s' = ACCELERATED_RUNNING /\
  simulationStartTime s' = now /\
  pausedTime s' = 0 /\
  getSimulationTime now s = Scenario.T0 + 10000 * 604800 /\
  getSimulationTime now s' = now /\
  getSimulationTime now s' <> getSimulationTime now s.
Proof.
  cbv zeta. split.
  - unfold Scenario.runningClock. apply run_reachable, reach_init.
  - repeat split; try reflexivity. vm_compute. discriminate.
Qed.

End ClockClaims.

(* ================================================================== *)
(** ** Properties of the orbital mathematics *)
(* ================================================================== *)

Section Orbit.

Import CelestialData.
Local Open Scope R_scope.

Lemma JS_or_zero (v : option R) : JS.or v 0 = Spec.orDefault v 0.
Proof.
  destruct v as [r|]; cbn; [|reflexivity].
  destruct (Req_dec_T r 0) as [->|_]; reflexivity.
Qed.

Lemma JS_or_some_zero (r : R) : JS.or (Some r) 0 = r.
Proof. now rewrite JS_or_zero. Qed.

Lemma one_day_ms : 1000 * 60 * 60 * 24 = Spec.ONE_DAY.
Proof. unfold Spec.ONE_DAY. lra. Qed.

(** *** The Kepler loop *)

Lemma keplerLoop_unfold (remaining : nat) (e M E : R) :
  OrbitalMath.keplerLoop (S remaining) e M E =
    if Rlt_dec (Rabs (Spec.newtonCorrection e M E)) 1e-8
    then E - Spec.newtonCorrection e M E
    else OrbitalMath.keplerLoop remaining e M (E - Spec.newtonCorrection e M E).
Proof. reflexivity. Qed.

(** Entered at iterate [j] with [S f] passes left, the loop leaves with an
    iterate [n] in [j+1 .. j+1+f]: every correction before the last one
    was at least [1e-8], and the last one was smaller unless the passes ran
    out. *)
Lemma keplerLoop_iterates (e M : R) (f j : nat) :
  exists n : nat,
    (S j <= n <= S j + f)%nat /\
    OrbitalMath.keplerLoop (S f) e M (Spec.newtonIterate e M j)
      = Spec.newtonIterate e M n /\
    (forall k, (j <= k)%nat -> (S k < n)%nat ->
       ~ Rabs (Spec.newtonCorrection e M (Spec.newtonIterate e M k)) < 1e-8) /\
    (n = (S j + f)%nat \/
     Rabs (Spec.newtonCorrection e M (Spec.newtonIterate e M (n - 1))) < 1e-8).
Proof.
  revert j. induction f as [| f IH]; intros j; rewrite keplerLoop_unfold.
  - exists (S j). split; [lia|]. split.
    + destruct (Rlt_dec _ _); reflexivity.
    + split; [intros; lia | left; lia].
  - destruct (Rlt_dec _ _) as [Hconv | Hnot].
    + exists (S j). split; [lia|]. split; [reflexivity|].
      split; [intros; lia|]. right.
      now replace (S j - 1)%nat with j by lia.
    + destruct (IH (S j)) as (n & Hn & Heq & Hbefore & Hlast).
      exists n. split; [lia|]. split; [exact Heq|]. split.
      * intros k Hjk Hkn.
        destruct (Nat.eq_dec k j) as [-> | Hne]; [exact Hnot|].
        apply Hbefore; lia.
      * destruct Hlast as [-> | Hlast]; [left; lia | now right].
Qed.

Lemma keplerLoop_solution (e M : R) :
  Spec.keplerSolution e M (OrbitalMath.keplerLoop 10 e M M).
Proof.
  destruct (keplerLoop_iterates e M 9 0) as (n & Hn & Heq & Hbefore & Hlast).
  exists n. split; [lia|]. split; [exact Heq|]. split.
  - intros k Hk. apply Hbefore; lia.
  - destruct Hlast as [-> | Hlast]; [now left | now right].
Qed.

(** The stopping iterate is unique: [keplerSolution] is a function of
    the eccentricity and the mean anomaly. *)
Lemma keplerSolution_unique (e M E1 E2 : R) :
  Spec.keplerSolution e M E1 -> Spec.keplerSolution e M E2 -> E1 = E2.
Proof.
  intros (n1 & Hn1 & -> & Hb1 & Hl1) (n2 & Hn2 & -> & Hb2 & Hl2).
  destruct (Nat.lt_trichotomy n1 n2) as [Hlt | [-> | Hgt]]; [|reflexivity|].
  - exfalso. destruct Hl1 as [-> | Hl1]; [lia|].
    apply (Hb2 (n1 - 1)%nat); [lia | exact Hl1].
  - exfalso. destruct Hl2 as [-> | Hl2]; [lia|].
    apply (Hb1 (n2 - 1)%nat); [lia | exact Hl2].
Qed.

(** *** Planet position *)

Lemma calculatePlanetPosition_propagation (data : CelestialBodyData) (time : R) :
  OrbitalMath.calculatePlanetPosition data time =
    Spec.positionAt data
      (OrbitalMath.keplerLoop 10 (eccentricity data)
         (Spec.meanAnomaly data time) (Spec.meanAnomaly data time)).
Proof.
  unfold OrbitalMath.calculatePlanetPosition. cbv zeta.
  rewrite !JS_or_some_zero, !JS_or_zero, one_day_ms.
  reflexivity.
Qed.

(** *** Rotation angle *)

Lemma calculateRotationAngle_cases (data : CelestialBodyData) (time : R) :
  OrbitalMath.calculateRotationAngle data time =
    if Rlt_dec 0 (rotationPeriod data)
    then Spec.rotationAngle data time
    else - Spec.rotationAngle data time.
Proof.
  unfold OrbitalMath.calculateRotationAngle, Spec.rotationAngle,
    Spec.daysSinceEpoch. cbv zeta. rewrite one_day_ms.
  destruct (Rlt_dec 0 (rotationPeriod data)); ring.
Qed.

(** *** Orbit path *)

Lemma orbitPathPoint_sample (data : CelestialBodyData) (segments i : nat) :
  OrbitalMath.orbitPathPoint data segments i =
    Spec.pathPoint data (INR i / INR segments * (2 * PI)).
Proof.
  unfold OrbitalMath.orbitPathPoint. cbv zeta.
  rewrite !JS_or_some_zero, !JS_or_zero.
  replace (INR i / INR segments * 2 * PI)
    with (INR i / INR segments * (2 * PI)) by ring.
  reflexivity.
Qed.

Lemma orbitPathLoop_length (data : CelestialBodyData)
    (segments remaining i : nat) (points : list Vector3) :
  length (OrbitalMath.orbitPathLoop data segments remaining i points)
    = (length points + remaining)%nat.
Proof.
  revert i points. induction remaining as [| r IH]; intros i points; cbn.
  - lia.
  - rewrite IH, length_app. cbn. lia.
Qed.

Lemma orbitPathLoop_nth (data : CelestialBodyData) (d : Vector3)
    (segments remaining i : nat) (points : list Vector3) (k : nat) :
  (k < length points + remaining)%nat ->
  nth k (OrbitalMath.orbitPathLoop data segments remaining i points) d =
    if (k <? length points)%nat then nth k points d
    else OrbitalMath.orbitPathPoint data segments (i + (k - length points)).
Proof.
  revert i points.
  induction remaining as [| r IH]; intros i points Hk;
    cbn [OrbitalMath.orbitPathLoop].
  - destruct (Nat.ltb_spec k (length points)); [reflexivity | lia].
  - rewrite IH by (rewrite length_app; cbn; lia).
    rewrite length_app. cbn [length].
    destruct (Nat.ltb_spec k (length points + 1)) as [Hlt | Hge];
      destruct (Nat.ltb_spec k (length points)) as [Hlt' | Hge']; try lia.
    + now rewrite app_nth1.
    + assert (k = length points) as -> by lia.
      rewrite app_nth2, Nat.sub_diag, Nat.add_0_r by lia. reflexivity.
    + f_equal. lia.
Qed.

Lemma generateOrbitPath_length (data : CelestialBodyData) (segments : nat) :
  length (OrbitalMath.generateOrbitPath data segments) = S segments.
Proof. unfold OrbitalMath.generateOrbitPath. now rewrite orbitPathLoop_length. Qed.

Lemma generateOrbitPath_nth (data : CelestialBodyData) (d : Vector3)
    (segments i : nat) :
  (i <= segments)%nat ->
  nth i (OrbitalMath.generateOrbitPath data segments) d =
    Spec.pathPoint data (INR i / INR segments * (2 * PI)).
Proof.
  intros Hi. unfold OrbitalMath.generateOrbitPath.
  rewrite orbitPathLoop_nth by (cbn; lia). cbn [length Nat.ltb Nat.leb Nat.add].
  rewrite Nat.sub_0_r. apply orbitPathPoint_sample.
Qed.

Lemma orient_period (data : CelestialBodyData) (r nu : R) :
  Spec.orient data r (nu + 2 * PI) = Spec.orient data r nu.
Proof.
  unfold Spec.orient. cbv zeta.
  set (w := Spec.longitudeOfPerihelion_rad data
            - Spec.longitudeOfAscendingNode_rad data).
  replace (nu + 2 * PI + w) with (nu + w + 2 * PI) by ring.
  assert (Hc : cos (nu + w + 2 * PI) = cos (nu + w))
    by (rewrite cos_plus, cos_2PI, sin_2PI; ring).
  assert (Hs : sin (nu + w + 2 * PI) = sin (nu + w))
    by (rewrite sin_plus, cos_2PI, sin_2PI; ring).
  now rewrite Hc, Hs.
Qed.

Lemma pathPoint_closed (data : CelestialBodyData) :
  Spec.pathPoint data (2 * PI) = Spec.pathPoint data 0.
Proof.
  unfold Spec.pathPoint. cbv zeta.
  rewrite cos_2PI, cos_0.
  replace (2 * PI) with (0 + 2 * PI) at 1 by ring.
  apply orient_period.
Qed.

(** *** The position lies on the sampled curve *)

Lemma cos_double_atan (z : R) :
  cos (2 * atan z) = (1 - z * z) / (1 + z * z).
Proof.
  assert (Hpos : 0 < 1 + z * z) by nra.
  rewrite cos_2a_cos, cos_atan. unfold Rsqr.
  set (s := sqrt (1 + z * z)).
  assert (Hs : s * s = 1 + z * z) by (apply sqrt_sqrt; lra).
  assert (Hs0 : s <> 0) by (intros H0; rewrite H0 in Hs; lra).
  replace (2 * (1 / s) * (1 / s) - 1) with (2 / (s * s) - 1)
    by (field; exact Hs0).
  rewrite Hs. field. lra.
Qed.

Lemma cos_double_atan2 (y x : R) :
  x * x + y * y <> 0 ->
  cos (2 * JS.atan2 y x) = (x * x - y * y) / (x * x + y * y).
Proof.
  intros Hnz.
  assert (Hquot : x <> 0 ->
            cos (2 * atan (y / x)) = (x * x - y * y) / (x * x + y * y)).
  { intros Hx. rewrite cos_double_atan. field. split; [exact Hnz | exact Hx]. }
  unfold JS.atan2.
  destruct (Rlt_dec 0 x) as [Hxpos | Hxnpos].
  - apply Hquot. lra.
  - destruct (Rlt_dec x 0) as [Hxneg | Hxnneg].
    + destruct (Rle_dec 0 y) as [Hy | Hy].
      * replace (2 * (atan (y / x) + PI)) with (2 * atan (y / x) + 2 * PI) by ring.
        rewrite cos_plus, cos_2PI, sin_2PI, Rmult_1_r, Rmult_0_r, Rminus_0_r.
        apply Hquot. lra.
      * replace (2 * (atan (y / x) - PI)) with (2 * atan (y / x) - 2 * PI) by ring.
        rewrite cos_minus, cos_2PI, sin_2PI, Rmult_1_r, Rmult_0_r, Rplus_0_r.
        apply Hquot. lra.
    + assert (Hx0 : x = 0) by lra. subst x.
      assert (Hy0 : y <> 0) by (intros ->; apply Hnz; ring).
      assert (Hrhs : (0 * 0 - y * y) / (0 * 0 + y * y) = -1)
        by (field; exact Hy0).
      rewrite Hrhs.
      destruct (Rlt_dec 0 y) as [Hypos | Hynpos].
      * replace (2 * (PI / 2)) with PI by field. apply cos_PI.
      * destruct (Rlt_dec y 0) as [Hyneg | Hynneg]; [|lra].
        replace (2 * - (PI / 2)) with (- PI) by field.
        rewrite cos_neg. apply cos_PI.
Qed.

(** The radius computed from the eccentric anomaly is the conic radius at
    the true anomaly derived from it, whatever the eccentric anomaly. *)
Lemma radius_at_trueAnomaly (a e E : R) :
  0 <= e < 1 ->
  a * (1 - e * e) / (1 + e * cos (Spec.trueAnomaly e E)) = a * (1 - e * cos E).
Proof.
  intros He. unfold Spec.trueAnomaly.
  set (c := cos (E / 2)). set (s := sin (E / 2)).
  assert (Hcs : s * s + c * c = 1).
  { pose proof (sin2_cos2 (E / 2)) as H. unfold Rsqr in H. exact H. }
  assert (HcosE : cos E = c * c - s * s).
  { replace E with (2 * (E / 2)) at 1 by field. apply cos_2a. }
  assert (Hp : sqrt (1 + e) * sqrt (1 + e) = 1 + e) by (apply sqrt_sqrt; lra).
  assert (Hm : sqrt (1 - e) * sqrt (1 - e) = 1 - e) by (apply sqrt_sqrt; lra).
  set (x := sqrt (1 - e) * c). set (y := sqrt (1 + e) * s).
  assert (Hx : x * x = (1 - e) * (c * c)).
  { subst x.
    replace (sqrt (1 - e) * c * (sqrt (1 - e) * c))
      with (sqrt (1 - e) * sqrt (1 - e) * (c * c)) by ring.
    now rewrite Hm. }
  assert (Hy : y * y = (1 + e) * (s * s)).
  { subst y.
    replace (sqrt (1 + e) * s * (sqrt (1 + e) * s))
      with (sqrt (1 + e) * sqrt (1 + e) * (s * s)) by ring.
    now rewrite Hp. }
  assert (Hsum : x * x + y * y = 1 - e * cos E).
  { rewrite Hx, Hy, HcosE. nra. }
  assert (Hdiff : x * x - y * y = cos E - e).
  { rewrite Hx, Hy, HcosE. nra. }
  assert (Hden : 0 < 1 - e * cos E).
  { pose proof (COS_bound E) as [Hlo Hhi].
    assert (0 <= e * (1 - cos E)) by (apply Rmult_le_pos; lra). lra. }
  rewrite cos_double_atan2 by (rewrite Hsum; lra).
  rewrite Hsum, Hdiff. field. split; [lra|].
  replace (1 - e * cos E + e * (cos E - e)) with (1 - e * e) by ring. nra.
Qed.

(** For valid elements the planet position is, at every instant, the
    orbit-path sample at the true anomaly the engine computed. *)
Lemma calculatePlanetPosition_on_orbit (data : CelestialBodyData) (time : R) :
  0 <= eccentricity data < 1 ->
  let e := eccentricity data in
  let E := OrbitalMath.keplerLoop 10 e
             (Spec.meanAnomaly data time) (Spec.meanAnomaly data time) in
  OrbitalMath.calculatePlanetPosition data time =
    Spec.pathPoint data (Spec.trueAnomaly e E).
Proof.
  intros He e E. rewrite calculatePlanetPosition_propagation.
  unfold Spec.positionAt, Spec.pathPoint. cbv zeta. fold e E.
  now rewrite radius_at_trueAnomaly.
Qed.

(** *** Satellite position *)

Lemma calculateMoonPosition_sqDistance
    (moonData : CelestialBodyData) (earthPosition : Vector3) (time : R) :
  let e := eccentricity moonData in
  let M := Spec.meanAnomaly moonData time in
  let E := OrbitalMath.keplerLoop 10 e M M in
  let r := OrbitalMath.calculateMoonPosition_moonDistance moonData
           * (1 - e * cos E) in
  Spec.sqDistance
    (OrbitalMath.calculateMoonPosition moonData earthPosition time)
    earthPosition = r * r.
Proof.
  intros e M E r.
  unfold OrbitalMath.calculateMoonPosition. cbv zeta.
  rewrite !JS_or_some_zero, !JS_or_zero, one_day_ms.
  change (OrbitalMath.keplerLoop 10 (eccentricity moonData) _ _) with E.
  fold e. fold r.
  set (nu := 2 * JS.atan2 _ _).
  set (i := Spec.orDefault (inclination moonData) 0 * PI / 180).
  unfold Spec.sqDistance. cbn [vx vy vz].
  pose proof (sin2_cos2 nu) as Hnu. pose proof (sin2_cos2 i) as Hi.
  unfold Rsqr in Hnu, Hi.
  replace (vx earthPosition + r * cos nu - vx earthPosition)
    with (r * cos nu) by ring.
  replace (vy earthPosition + r * sin nu * sin i - vy earthPosition)
    with (r * sin nu * sin i) by ring.
  replace (vz earthPosition + r * sin nu * cos i - vz earthPosition)
    with (r * sin nu * cos i) by ring.
  replace (r * cos nu * (r * cos nu) + r * sin nu * sin i * (r * sin nu * sin i)
           + r * sin nu * cos i * (r * sin nu * cos i))
    with (r * r * (cos nu * cos nu
                   + sin nu * sin nu * (sin i * sin i + cos i * cos i))) by ring.
  rewrite Hi, Rmult_1_r, (Rplus_comm (cos nu * cos nu)), Hnu. ring.
Qed.

End Orbit.

(* ================================================================== *)
(** ** Claims about the orbital mathematics *)
(* ================================================================== *)

Section OrbitClaims.

Import CelestialData.
Local Open Scope R_scope.

(** C4.  For a body with a positive orbital period and any instant,
    [calculatePlanetPosition] is the Keplerian propagation of the
    specification: days since the epoch, mean motion [2 PI / period], mean
    anomaly from the mean longitude at epoch and the longitude of
    perihelion (degrees turned into radians), the eccentric anomaly reached
    by Newton-Raphson from [E0 = M] when a correction drops below [1e-8] or
    after ten iterations, the half-angle [atan2] true anomaly, the radius
    [a (1 - e cos E)] in display units, the rotation by inclination and
    node, and the result returned as [(x, z, y)]. *)
Theorem C4_calculatePlanetPosition_keplerian (data : CelestialBodyData) (t : R) :
  0 < orbitalPeriod data ->
  let e := eccentricity data in
  let a := Spec.orDefault (semiMajorAxis data) 0 * sf_distance scaleFactors in
  let i := Spec.radians (Spec.orDefault (inclination data) 0) in
  let L0 := Spec.radians (Spec.orDefault (meanLongitude data) 0) in
  let w := Spec.radians (Spec.orDefault (longitudePerihelion data) 0) in
  let Om := Spec.radians (Spec.orDefault (longitudeNode data) 0) in
  let daysSinceEpoch := (t - J2000_EPOCH) / Spec.ONE_DAY in
  let meanMotion := 2 * PI / orbitalPeriod data in
  let M := L0 + meanMotion * daysSinceEpoch - w in
  exists E : R,
    Spec.keplerSolution e M E /\
    let nu := 2 * JS.atan2 (sqrt (1 + e) * sin (E / 2))
                           (sqrt (1 - e) * cos (E / 2)) in
    let r := a * (1 - e * cos E) in
    let u := nu + (w - Om) in
    let x := r * (cos Om * cos u - sin Om * sin u * cos i) in
    let y := r * (sin Om * cos u + cos Om * sin u * cos i) in
    let z := r * (sin u * sin i) in
    OrbitalMath.calculatePlanetPosition data t = mkVector3 x z y.
Proof.
  intros _ e a i L0 w Om daysSinceEpoch meanMotion M.
  exists (OrbitalMath.keplerLoop 10 e M M). split.
  - apply keplerLoop_solution.
  - apply calculatePlanetPosition_propagation.
Qed.

Lemma C4_calculatePlanetPosition_keplerian_witness :
  0 < orbitalPeriod (earth celestialData) /\
  exists E : R,
    Spec.keplerSolution (eccentricity (earth celestialData))
      (Spec.meanAnomaly (earth celestialData) J2000_EPOCH) E /\
    OrbitalMath.calculatePlanetPosition (earth celestialData) J2000_EPOCH =
      Spec.positionAt (earth celestialData) E.
Proof.
  assert (Hp : 0 < orbitalPeriod (earth celestialData)) by (cbn; lra).
  split; [exact Hp|].
  exact (C4_calculatePlanetPosition_keplerian (earth celestialData) J2000_EPOCH Hp).
Defined.

(** C7.  For valid elements and [N >= 1] segments, [generateOrbitPath]
    returns a list of exactly [N + 1] points; point [i] is the sample at
    true anomaly [(i / N) * 2 PI] with radius
    [a (1 - e^2) / (1 + e cos nu)], oriented and remapped to [(x, z, y)] by
    the transform [calculatePlanetPosition] applies to its own radius and
    true anomaly; the first and the last point coincide. *)
Theorem C7_generateOrbitPath_samples (data : CelestialBodyData) (N : nat) :
  Spec.valid_elements data ->
  (1 <= N)%nat ->
  let path := OrbitalMath.generateOrbitPath data N in
  let e := eccentricity data in
  let a := Spec.a_display data in
  length path = (N + 1)%nat /\
  (forall (i : nat) (d : Vector3), (i <= N)%nat ->
     let nu := INR i / INR N * (2 * PI) in
     let r := a * (1 - e * e) / (1 + e * cos nu) in
     nth i path d = Spec.orient data r nu) /\
  (forall t : R,
     let E := OrbitalMath.keplerLoop 10 e
                (Spec.meanAnomaly data t) (Spec.meanAnomaly data t) in
     OrbitalMath.calculatePlanetPosition data t =
       Spec.orient data (a * (1 - e * cos E)) (Spec.trueAnomaly e E)) /\
  (forall d : Vector3, nth 0 path d = nth N path d).
Proof.
  intros _ HN path e a. subst path. split; [|split; [|split]].
  - rewrite generateOrbitPath_length. lia.
  - intros i d Hi nu r. now rewrite generateOrbitPath_nth.
  - intros t E. apply calculatePlanetPosition_propagation.
  - intros d. rewrite !generateOrbitPath_nth by lia.
    assert (HNR : INR N <> 0) by (apply not_0_INR; lia).
    replace (INR 0 / INR N * (2 * PI)) with 0 by (cbn; field; exact HNR).
    replace (INR N / INR N * (2 * PI)) with (2 * PI) by (field; exact HNR).
    symmetry. apply pathPoint_closed.
Qed.

Lemma C7_generateOrbitPath_samples_witness :
  Spec.valid_elements (earth celestialData) /\
  (1 <= 4)%nat /\
  length (OrbitalMath.generateOrbitPath (earth celestialData) 4) = 5%nat /\
  (forall d : Vector3,
     nth 0 (OrbitalMath.generateOrbitPath (earth celestialData) 4) d =
     nth 4 (OrbitalMath.generateOrbitPath (earth celestialData) 4) d).
Proof.
  assert (Hv : Spec.valid_elements (earth celestialData))
    by (unfold Spec.valid_elements; cbn; lra).
  assert (HN : (1 <= 4)%nat) by lia.
  split; [exact Hv|]. split; [exact HN|].
  destruct (C7_generateOrbitPath_samples (earth celestialData) 4 Hv HN)
    as (Hlen & _ & _ & Hclosed).
  split; [exact Hlen | exact Hclosed].
Defined.

(** C8.  For a non-zero rotation period, [calculateRotationAngle] returns
    [(daysSinceEpoch / |rotationPeriod|) * 2 PI], negated when the period
    is negative; with period [-243.0226] and [243.0226] days since the
    epoch the angle is [- 2 PI]. *)
Theorem C8_calculateRotationAngle :
  (forall (data : CelestialBodyData) (t : R),
     rotationPeriod data <> 0 ->
     let angle :=
       Spec.daysSinceEpoch t / Rabs (rotationPeriod data) * (2 * PI) in
     OrbitalMath.calculateRotationAngle data t =
       if Rlt_dec (rotationPeriod data) 0 then - angle else angle) /\
  (forall (data : CelestialBodyData) (t : R),
     rotationPeriod data = -243.0226 ->
     Spec.daysSinceEpoch t = 243.0226 ->
     OrbitalMath.calculateRotationAngle data t = - (2 * PI)).
Proof.
  split.
  - intros data t Hnz angle. rewrite calculateRotationAngle_cases.
    fold angle. unfold Spec.rotationAngle.
    destruct (Rlt_dec 0 (rotationPeriod data)) as [Hpos | Hnpos];
      destruct (Rlt_dec (rotationPeriod data) 0) as [Hneg | Hnneg];
      try reflexivity; lra.
  - intros data t Hp Hd. rewrite calculateRotationAngle_cases.
    unfold Spec.rotationAngle. rewrite Hd, Hp.
    destruct (Rlt_dec 0 (-243.0226)) as [Habs | _]; [lra|].
    rewrite Rabs_left by lra.
    replace (- (-243.0226)) with 243.0226 by lra.
    unfold Rdiv. rewrite Rinv_r by lra. ring.
Qed.

Lemma C8_calculateRotationAngle_witness :
  rotationPeriod (venus celestialData) <> 0 /\
  rotationPeriod (venus celestialData) = -243.0226 /\
  Spec.daysSinceEpoch Scenario.venusTurn = 243.0226 /\
  OrbitalMath.calculateRotationAngle (venus celestialData) Scenario.venusTurn
    = - (2 * PI).
Proof.
  assert (Hp : rotationPeriod (venus celestialData) = -243.0226) by reflexivity.
  assert (Hd : Spec.daysSinceEpoch Scenario.venusTurn = 243.0226).
  { unfold Spec.daysSinceEpoch, Scenario.venusTurn, Spec.ONE_DAY. lra. }
  split; [rewrite Hp; lra|]. split; [exact Hp|]. split; [exact Hd|].
  exact (proj2 C8_calculateRotationAngle (venus celestialData)
           Scenario.venusTurn Hp Hd).
Defined.

End OrbitClaims.

(* ================================================================== *)
(** ** Claims about the element table and the scene construction *)
(* ================================================================== *)

Section SceneClaims.

Import CelestialData.
Local Open Scope R_scope.

(** C9.  The display multiplier of the satellite orbit differs between the
    two call sites.  With [physical = semiMajorAxis * distanceScale] of the
    moon entry, the per-frame routine places the moon at distance
    [physical * 45 * (1 - e cos E)] from the primary, the creation site at
    distance [physical * 30] from the primary's initial position; the two
    display distances [physical * 45] and [physical * 30] differ whenever
    the physical element is non-zero, and they differ for the shipped
    moon. *)
Theorem C9_moon_display_multiplier_mismatch
    (table : CelestialDataCollection) (earthPosition : Vector3) (time : R) :
  let moonData := moon table in
  let physical :=
    Spec.orDefault (semiMajorAxis moonData) 0 * sf_distance scaleFactors in
  let perFrame := OrbitalMath.calculateMoonPosition_moonDistance moonData in
  let atCreation := CelestialObjects.createMoon_moonDistance moonData in
  let earthDistance :=
    Spec.orDefault (semiMajorAxis (earth table)) 0 * sf_distance scaleFactors in
  let e := eccentricity moonData in
  let E := OrbitalMath.keplerLoop 10 e
             (Spec.meanAnomaly moonData time) (Spec.meanAnomaly moonData time) in
  perFrame = physical * 45 /\
  Spec.sqDistance
    (OrbitalMath.calculateMoonPosition moonData earthPosition time)
    earthPosition
    = (physical * 45 * (1 - e * cos E)) * (physical * 45 * (1 - e * cos E)) /\
  atCreation = physical * 30 /\
  CelestialObjects.position (CelestialObjects.createMoon table)
    = mkVector3 (earthDistance + physical * 30) 0 0 /\
  (physical <> 0 -> perFrame <> atCreation) /\
  OrbitalMath.calculateMoonPosition_moonDistance (moon celestialData)
    <> CelestialObjects.createMoon_moonDistance (moon celestialData).
Proof.
  intros moonData physical perFrame atCreation earthDistance e E.
  assert (H45 : perFrame = physical * 45).
  { subst perFrame physical.
    unfold OrbitalMath.calculateMoonPosition_moonDistance.
    now rewrite JS_or_zero. }
  assert (H30 : atCreation = physical * 30).
  { subst atCreation physical.
    unfold CelestialObjects.createMoon_moonDistance.
    now rewrite JS_or_zero. }
  split; [exact H45|]. split.
  { rewrite calculateMoonPosition_sqDistance. fold moonData perFrame.
    now rewrite H45. }
  split; [exact H30|]. split.
  { unfold CelestialObjects.createMoon. cbv zeta. cbn [CelestialObjects.position].
    fold moonData atCreation. rewrite H30, JS_or_zero. reflexivity. }
  split.
  { intros Hnz. rewrite H45, H30. lra. }
  unfold OrbitalMath.calculateMoonPosition_moonDistance,
    CelestialObjects.createMoon_moonDistance.
  rewrite JS_or_zero. cbn. lra.
Qed.

Lemma C9_moon_display_multiplier_mismatch_witness :
  Spec.orDefault (semiMajorAxis (moon celestialData)) 0 * sf_distance scaleFactors
    <> 0 /\
  OrbitalMath.calculateMoonPosition_moonDistance (moon celestialData) = 1.1565 /\
  CelestialObjects.createMoon_moonDistance (moon celestialData) = 0.771 /\
  OrbitalMath.calculateMoonPosition_moonDistance (moon celestialData)
    <> CelestialObjects.createMoon_moonDistance (moon celestialData).
Proof.
  destruct (C9_moon_display_multiplier_mismatch celestialData (mkVector3 0 0 0) 0)
    as (H45 & _ & H30 & _ & Hne & _).
  cbv zeta in H45, H30, Hne.
  assert (Hnz : Spec.orDefault (semiMajorAxis (moon celestialData)) 0
                * sf_distance scaleFactors <> 0) by (cbn; lra).
  split; [exact Hnz|]. split; [rewrite H45; cbn; lra|].
  split; [rewrite H30; cbn; lra|].
  exact (Hne Hnz).
Defined.

(** C3 (as stated, refuted).  A table whose Mercury has eccentricity [1.5]
    has a malformed non-central body, and loading it does not fail. *)
Lemma C3_malformed_table_is_accepted :
  ~ (forall table : CelestialDataCollection,
       (exists data, In data (Spec.nonCentralBodies table) /\ Spec.malformed data) ->
       exists message, CelestialObjects.load table = JS.Thrown message).
Proof.
  intros Hreject.
  destruct (Hreject Scenario.malformedTable) as [message Hthrown].
  - exists (mercury Scenario.malformedTable). split.
    + left. reflexivity.
    + left. cbn. lra.
  - discriminate Hthrown.
Qed.

(** C3 (amended).  Loading performs no validation: for every table,
    malformed or not, the constructor returns a scene whose meshes carry
    the table's entries unchanged.  The math engine clamps nothing either:
    for every body, whatever its eccentricity, the position and the orbit
    samples are the Keplerian expressions in that very eccentricity.  The
    shipped table itself has valid elements for every non-central body. *)
Theorem C3_no_validation_no_clamping (table : CelestialDataCollection) :
  (exists scene,
     CelestialObjects.load table = JS.Returned scene /\
     CelestialObjects.userData (CelestialObjects.sunMesh scene) = sun table /\
     map CelestialObjects.userData (CelestialObjects.planets scene)
       = CelestialObjects.planetNames table /\
     CelestialObjects.userData (CelestialObjects.moonMesh scene) = moon table /\
     CelestialObjects.orbits scene
       = map (fun data => OrbitalMath.generateOrbitPath data 256)
             (CelestialObjects.planetNames table)) /\
  (forall (data : CelestialBodyData) (t : R),
     OrbitalMath.calculatePlanetPosition data t =
       Spec.positionAt data
         (OrbitalMath.keplerLoop 10 (eccentricity data)
            (Spec.meanAnomaly data t) (Spec.meanAnomaly data t))) /\
  (forall (data : CelestialBodyData) (N i : nat) (d : Vector3),
     (i <= N)%nat ->
     nth i (OrbitalMath.generateOrbitPath data N) d =
       Spec.pathPoint data (INR i / INR N * (2 * PI))) /\
  (forall data, In data (Spec.nonCentralBodies celestialData) ->
     Spec.valid_elements data).
Proof.
  split; [|split; [|split]].
  - eexists. split; [reflexivity|]. cbn. repeat split; reflexivity.
  - intros data t. apply calculatePlanetPosition_propagation.
  - intros data N i d Hi. now apply generateOrbitPath_nth.
  - intros data Hin. unfold Spec.valid_elements.
    cbn in Hin.
    repeat (destruct Hin as [<- | Hin]; [cbn; lra|]).
    contradiction.
Qed.

Lemma C3_no_validation_no_clamping_witness :
  Spec.malformed (mercury Scenario.malformedTable) /\
  (exists scene,
     CelestialObjects.load Scenario.malformedTable = JS.Returned scene /\
     map CelestialObjects.userData (CelestialObjects.planets scene)
       = CelestialObjects.planetNames Scenario.malformedTable) /\
  eccentricity (mercury Scenario.malformedTable) = 1.5.
Proof.
  split; [left; cbn; lra|]. split; [|reflexivity].
  destruct (C3_no_validation_no_clamping Scenario.malformedTable)
    as ((scene & Hload & _ & Hplanets & _) & _).
  exists scene. split; [exact Hload | exact Hplanets].
Defined.

End SceneClaims.

(* ================================================================== *)
(** ** Further properties of the simulation clock *)
(* ================================================================== *)

Section ClockBehaviour.

Import TimeSystem.
Local Open Scope Z_scope.

Lemma clockState_realtime (s : t) :
  clockState s = REALTIME <-> timeMode s = static.
Proof.
  unfold clockState. destruct (timeMode s), (isPaused s);
    split; intros H; try reflexivity; discriminate.
Qed.

Lemma exec_static_unpaused (c : Call) (s : t) :
  (timeMode s = static -> isPaused s = false /\ pausedTime s = 0) ->
  timeMode (exec c s) = static ->
  isPaused (exec c s) = false /\ pausedTime (exec c s) = 0.
Proof.
  intros IH.
  destruct s as [m st sc p pt o']. cbn in IH.
  destruct c as [now | now | now o]; destruct m, p; cbn;
    intros Hm; try discriminate Hm; try (split; reflexivity);
    apply IH; reflexivity.
Qed.

(** X1.  Entering accelerated mode from REALTIME is continuous: the clock
    is then ACCELERATED-RUNNING, it reads the wall clock at the instant of
    the call, exactly as before it, and [d] real milliseconds later it
    reads [d * accelerationFactor] simulated milliseconds more. *)
Theorem X1_entering_accelerated_mode_is_continuous (now : Z) (s : t) :
  scale_consistent s ->
  clockState s = REALTIME ->
  let s' := toggleTimeMode now s in
  clockState s' = ACCELERATED_RUNNING /\
  getSimulationTime now s' = getSimulationTime now s /\
  (forall d, getSimulationTime (now + d) s' = now + d * accelerationFactor s).
Proof.
  intros Hc Hr s'. apply clockState_realtime in Hr.
  pose proof (fun d => scale_div_exact s d Hc) as Hd.
  subst s'. destruct s as [m st sc p pt o]; cbn in Hr, Hd |- *; subst m.
  split; [reflexivity|]. split.
  - unfold getSimulationTime; cbn. rewrite Z.sub_diag. cbn. ring.
  - intros d. unfold getSimulationTime; cbn.
    replace (now + d - now) with d by ring. now rewrite Hd.
Qed.

Lemma X1_entering_accelerated_mode_is_continuous_witness :
  let s := init Scenario.T0 in
  let s' := toggleTimeMode (Scenario.T0 + 250) s in
  scale_consistent s /\ clockState s = REALTIME /\
  clockState s' = ACCELERATED_RUNNING /\
  getSimulationTime (Scenario.T0 + 250) s' = Scenario.T0 + 250 /\
  getSimulationTime (Scenario.T0 + 250 + 1000) s' = Scenario.T0 + 250 + 604800000.
Proof.
  intros s s'.
  assert (Hc : scale_consistent s) by reflexivity.
  assert (Hr : clockState s = REALTIME) by reflexivity.
  destruct (X1_entering_accelerated_mode_is_continuous (Scenario.T0 + 250) s Hc Hr)
    as (H1 & H2 & H3).
  split; [exact Hc|]. split; [exact Hr|]. split; [exact H1|].
  split; [exact H2 | exact (H3 1000)].
Defined.

(** X2.  Whatever the sequence of calls, a clock in REALTIME mode is never
    paused and carries no paused offset, and the rate field is the one
    selected by the current option (a multiple of 1000). *)
Theorem X2_reachable_clock_invariant (s : t) :
  reachable s ->
  scale_consistent s /\
  animationTimeScale s = 1000 * accelerationFactor s /\
  (timeMode s = static -> isPaused s = false /\ pausedTime s = 0).
Proof.
  intros Hreach. split; [now apply reachable_consistent|]. split.
  - pose proof (reachable_consistent s Hreach) as Hc.
    unfold accelerationFactor. rewrite Hc. apply scaleOfOption_multiple.
  - induction Hreach as [now | s c Hreach IH].
    + intros _. split; reflexivity.
    + now apply exec_static_unpaused.
Qed.

Lemma X2_reachable_clock_invariant_witness :
  let s := run [CallToggleTimeMode 10; CallTogglePause 20;
                CallSetTimeScaleOption 30 hour; CallToggleTimeMode 40] (init 0) in
  reachable s /\ timeMode s = static /\
  animationTimeScale s = 3600000 /\ isPaused s = false /\ pausedTime s = 0.
Proof.
  intros s.
  assert (Hreach : reachable s) by (apply run_reachable, reach_init).
  destruct (X2_reachable_clock_invariant s Hreach) as (_ & _ & Hstatic).
  split; [exact Hreach|]. split; [reflexivity|]. split; [reflexivity|].
  apply Hstatic. reflexivity.
Defined.

(** X3.  Entering accelerated mode and leaving it again: toggling the
    mode twice from REALTIME ends in REALTIME, unpaused and with no paused
    offset, the anchor being the wall clock of the first toggle; the rate
    and its option survive, and the clock reads the wall clock as before. *)
Theorem X3_toggleTimeMode_twice (now1 now2 : Z) (s : t) :
  clockState s = REALTIME ->
  toggleTimeMode now2 (toggleTimeMode now1 s) =
    mk static now1 (animationTimeScale s) false 0 (currentTimeScaleOption s) /\
  (forall now, getSimulationTime now (toggleTimeMode now2 (toggleTimeMode now1 s))
               = getSimulationTime now s).
Proof.
  intros Hr. apply clockState_realtime in Hr.
  destruct s as [m st sc p pt o]; cbn in Hr; subst m.
  split; reflexivity.
Qed.

Lemma X3_toggleTimeMode_twice_witness :
  let s := setTimeScaleOption 3 day (init Scenario.T0) in
  clockState s = REALTIME /\
  toggleTimeMode 7 (toggleTimeMode 5 s) = mk static 5 86400000 false 0 day.
Proof.
  intros s.
  assert (Hr : clockState s = REALTIME) by reflexivity.
  split; [exact Hr|].
  exact (proj1 (X3_toggleTimeMode_twice 5 7 s Hr)).
Defined.

(** X4.  Pausing is continuous: the frozen instant held after
    RUNNING -> PAUSED is the running instant at the moment of the call. *)
Theorem X4_pausing_is_continuous (now : Z) (s : t) :
  clockState s = ACCELERATED_RUNNING ->
  clockState (togglePause now s) = ACCELERATED_PAUSED /\
  pausedTime (togglePause now s) = now - simulationStartTime s /\
  (forall now', getSimulationTime now' (togglePause now s)
                = getSimulationTime now s).
Proof.
  intros Hr. apply clockState_running in Hr as [Hm Hp].
  destruct s as [m st sc p pt o]; cbn in Hm, Hp; subst m p.
  repeat split; reflexivity.
Qed.

Lemma X4_pausing_is_continuous_witness :
  clockState Scenario.runningClock = ACCELERATED_RUNNING /\
  getSimulationTime (Scenario.T0 + 99999)
    (togglePause (Scenario.T0 + 1000) Scenario.runningClock)
  = getSimulationTime (Scenario.T0 + 1000) Scenario.runningClock.
Proof.
  assert (Hr : clockState Scenario.runningClock = ACCELERATED_RUNNING)
    by reflexivity.
  split; [exact Hr|].
  destruct (X4_pausing_is_continuous (Scenario.T0 + 1000) Scenario.runningClock Hr)
    as (_ & _ & H).
  exact (H (Scenario.T0 + 99999)).
Defined.

(** X5.  While running, the simulated instant advances at exactly the
    acceleration factor: [d] real milliseconds add [d * accelerationFactor]
    simulated ones, the reading is strictly increasing in the wall clock,
    and from the anchor on it is never behind the wall clock. *)
Theorem X5_running_clock_rate (now d : Z) (s : t) :
  scale_consistent s ->
  clockState s = ACCELERATED_RUNNING ->
  getSimulationTime (now + d) s
    = getSimulationTime now s + d * accelerationFactor s /\
  (0 < d -> getSimulationTime now s < getSimulationTime (now + d) s) /\
  (simulationStartTime s <= now -> now <= getSimulationTime now s).
Proof.
  intros Hc Hr.
  rewrite !(getSimulationTime_running _ s Hc Hr).
  pose proof (accelerationFactor_gt_1 s Hc) as Hf.
  split; [ring|]. split.
  - intros Hd. nia.
  - intros Hle. nia.
Qed.

Lemma X5_running_clock_rate_witness :
  scale_consistent Scenario.runningClock /\
  clockState Scenario.runningClock = ACCELERATED_RUNNING /\
  getSimulationTime (Scenario.T0 + 2000 + 1000) Scenario.runningClock
    = getSimulationTime (Scenario.T0 + 2000) Scenario.runningClock
      + 1000 * 604800.
Proof.
  assert (Hc : scale_consistent Scenario.runningClock) by reflexivity.
  assert (Hr : clockState Scenario.runningClock = ACCELERATED_RUNNING)
    by reflexivity.
  split; [exact Hc|]. split; [exact Hr|].
  exact (proj1 (X5_running_clock_rate (Scenario.T0 + 2000) 1000
                  Scenario.runningClock Hc Hr)).
Defined.

(** X6.  A pause that is undone at the same wall-clock instant leaves no
    trace on the readings: the clock runs again and returns, at every
    instant, what it would have returned without the two calls. *)
Theorem X6_pause_and_resume_at_once (now : Z) (s : t) :
  clockState s = ACCELERATED_RUNNING ->
  let s' := togglePause now (togglePause now s) in
  clockState s' = ACCELERATED_RUNNING /\
  simulationStartTime s' = simulationStartTime s /\
  (forall now', getSimulationTime now' s' = getSimulationTime now' s).
Proof.
  intros Hr s'. apply clockState_running in Hr as [Hm Hp].
  subst s'. destruct s as [m st sc p pt o]; cbn in Hm, Hp; subst m p.
  cbn. replace (now - (now - st)) with st by ring.
  repeat split; reflexivity.
Qed.

Lemma X6_pause_and_resume_at_once_witness :
  clockState Scenario.runningClock = ACCELERATED_RUNNING /\
  getSimulationTime (Scenario.T0 + 5000)
    (togglePause (Scenario.T0 + 300)
       (togglePause (Scenario.T0 + 300) Scenario.runningClock))
  = getSimulationTime (Scenario.T0 + 5000) Scenario.runningClock.
Proof.
  assert (Hr : clockState Scenario.runningClock = ACCELERATED_RUNNING)
    by reflexivity.
  split; [exact Hr|].
  destruct (X6_pause_and_resume_at_once (Scenario.T0 + 300) Scenario.runningClock Hr)
    as (_ & _ & H).
  exact (H (Scenario.T0 + 5000)).
Defined.

(** X7.  Choosing a rate in REALTIME has no immediate effect - the clock
    stays in REALTIME and keeps reading the wall clock - and takes effect
    when accelerated mode is entered: [d] real milliseconds after the
    toggle the reading is the toggle instant plus [d] times the chosen
    factor. *)
Theorem X7_rate_chosen_in_realtime (now tEnter : Z) (o : TimeScaleOption) (s : t) :
  clockState s = REALTIME ->
  let s' := setTimeScaleOption now o s in
  clockState s' = REALTIME /\
  simulationStartTime s' = simulationStartTime s /\
  currentTimeScaleOption s' = o /\
  (forall now', getSimulationTime now' s' = now') /\
  (forall d, getSimulationTime (tEnter + d) (toggleTimeMode tEnter s')
             = tEnter + d * (scaleOfOption o / 1000)).
Proof.
  intros Hr s'. apply clockState_realtime in Hr.
  subst s'. destruct s as [m st sc p pt o']; cbn in Hr; subst m.
  unfold setTimeScaleOption; cbn.
  repeat split.
  intros d. unfold getSimulationTime; cbn.
  replace (tEnter + d - tEnter) with d by ring.
  now rewrite scaleOfOption_div_exact.
Qed.

Lemma X7_rate_chosen_in_realtime_witness :
  let s := init Scenario.T0 in
  clockState s = REALTIME /\
  getSimulationTime (Scenario.T0 + 50 + 1000)
    (toggleTimeMode (Scenario.T0 + 50) (setTimeScaleOption (Scenario.T0 + 20) day s))
  = Scenario.T0 + 50 + 1000 * 86400.
Proof.
  intros s.
  assert (Hr : clockState s = REALTIME) by reflexivity.
  split; [exact Hr|].
  destruct (X7_rate_chosen_in_realtime (Scenario.T0 + 20) (Scenario.T0 + 50) day s Hr)
    as (_ & _ & _ & _ & H).
  exact (H 1000).
Defined.

End ClockBehaviour.

(* ================================================================== *)
(** ** Further properties of the orbital mathematics *)
(* ================================================================== *)

Section OrbitBehaviour.

Import CelestialData.
Local Open Scope R_scope.

(** *** Distances *)

Lemma orient_sqDistance (data : CelestialBodyData) (r nu : R) :
  Spec.sqDistance (Spec.orient data r nu) Sample.origin = r * r.
Proof.
  unfold Spec.orient, Spec.sqDistance, Sample.origin. cbv zeta. cbn [vx vy vz].
  set (u := nu + _). set (i := Spec.inclination_rad data).
  set (Om := Spec.longitudeOfAscendingNode_rad data).
  pose proof (sin2_cos2 u) as Hu. pose proof (sin2_cos2 i) as Hi.
  pose proof (sin2_cos2 Om) as HO. unfold Rsqr in Hu, Hi, HO.
  replace ((r * (cos Om * cos u - sin Om * sin u * cos i) - 0)
           * (r * (cos Om * cos u - sin Om * sin u * cos i) - 0)
           + (r * (sin u * sin i) - 0) * (r * (sin u * sin i) - 0)
           + (r * (sin Om * cos u + cos Om * sin u * cos i) - 0)
             * (r * (sin Om * cos u + cos Om * sin u * cos i) - 0))
    with (r * r * ((cos u * cos u) * (sin Om * sin Om + cos Om * cos Om)
                   + (sin u * sin u) * (cos i * cos i)
                     * (sin Om * sin Om + cos Om * cos Om)
                   + (sin u * sin u) * (sin i * sin i))) by ring.
  rewrite HO, !Rmult_1_r.
  replace (cos u * cos u + sin u * sin u * (cos i * cos i)
           + sin u * sin u * (sin i * sin i))
    with (cos u * cos u + sin u * sin u * (sin i * sin i + cos i * cos i))
    by ring.
  rewrite Hi, Rmult_1_r, (Rplus_comm (cos u * cos u)), Hu. ring.
Qed.

Lemma radius_from_E_bounds (a e E : R) :
  0 <= a -> 0 <= e < 1 ->
  a * (1 - e) <= a * (1 - e * cos E) <= a * (1 + e).
Proof.
  intros Ha He. pose proof (COS_bound E) as [Hlo Hhi].
  assert (H1 : 0 <= e * (1 - cos E)) by (apply Rmult_le_pos; lra).
  assert (H2 : 0 <= e * (1 + cos E)) by (apply Rmult_le_pos; lra).
  split; apply Rmult_le_compat_l; lra.
Qed.

Lemma radius_from_nu_bounds (a e nu : R) :
  0 <= a -> 0 <= e < 1 ->
  a * (1 - e) <= a * (1 - e * e) / (1 + e * cos nu) <= a * (1 + e).
Proof.
  intros Ha He. pose proof (COS_bound nu) as [Hlo Hhi].
  assert (H1 : 0 <= e * (1 - cos nu)) by (apply Rmult_le_pos; lra).
  assert (H2 : 0 <= e * (1 + cos nu)) by (apply Rmult_le_pos; lra).
  set (D := 1 + e * cos nu).
  assert (HD : 0 < D) by (subst D; lra).
  assert (Hq : 1 - e <= (1 - e * e) / D <= 1 + e).
  { split.
    - apply (Rmult_le_reg_r D); [exact HD|].
      replace ((1 - e * e) / D * D) with (1 - e * e) by (field; lra).
      subst D. nra.
    - apply (Rmult_le_reg_r D); [exact HD|].
      replace ((1 - e * e) / D * D) with (1 - e * e) by (field; lra).
      subst D. nra. }
  replace (a * (1 - e * e) / D) with (a * ((1 - e * e) / D))
    by (unfold Rdiv; ring).
  split; apply Rmult_le_compat_l; lra.
Qed.

Lemma sq_le_between (lo r hi : R) :
  0 <= lo -> lo <= r <= hi -> lo * lo <= r * r <= hi * hi.
Proof. intros Hlo [H1 H2]. split; nra. Qed.

(** X8.  For valid elements (eccentricity in [0, 1), positive orbital
    period) with a non-negative semi-major axis, the planet computed for
    any instant is at distance [r = a (1 - e cos E)] from the sun ([a] in
    display units, [E] the eccentric anomaly the Kepler loop returned), and
    that distance lies between the perihelion distance [a (1 - e)] and the
    aphelion distance [a (1 + e)]. *)
Theorem X8_planet_distance_within_apsides (data : CelestialBodyData) (t : R) :
  Spec.valid_elements data ->
  0 <= Spec.a_display data ->
  let a := Spec.a_display data in
  let e := eccentricity data in
  let E := OrbitalMath.keplerLoop 10 e
             (Spec.meanAnomaly data t) (Spec.meanAnomaly data t) in
  let r := a * (1 - e * cos E) in
  Spec.sqDistance (OrbitalMath.calculatePlanetPosition data t) Sample.origin
    = r * r /\
  a * (1 - e) <= r <= a * (1 + e).
Proof.
  intros [He _] Ha a e E r. split.
  - rewrite calculatePlanetPosition_propagation.
    unfold Spec.positionAt. cbv zeta. apply orient_sqDistance.
  - now apply radius_from_E_bounds.
Qed.

Lemma X8_planet_distance_within_apsides_witness :
  Spec.valid_elements (mars celestialData) /\
  0 <= Spec.a_display (mars celestialData) /\
  exists r,
    Spec.sqDistance
      (OrbitalMath.calculatePlanetPosition (mars celestialData) 1700000000000)
      Sample.origin = r * r /\
    Spec.a_display (mars celestialData) * (1 - eccentricity (mars celestialData))
      <= r
      <= Spec.a_display (mars celestialData) * (1 + eccentricity (mars celestialData)).
Proof.
  assert (He : Spec.valid_elements (mars celestialData))
    by (unfold Spec.valid_elements; cbn; lra).
  assert (Ha : 0 <= Spec.a_display (mars celestialData))
    by (unfold Spec.a_display; cbn; lra).
  split; [exact He|]. split; [exact Ha|].
  eexists.
  exact (X8_planet_distance_within_apsides (mars celestialData) 1700000000000 He Ha).
Defined.

(** X9.  For valid elements with a non-negative semi-major axis and at
    least one segment, every point of the orbit path is at distance
    [a (1 - e^2) / (1 + e cos nu)] from the sun, between perihelion and
    aphelion distance; the first point is at perihelion distance exactly. *)
Theorem X9_orbit_path_within_apsides (data : CelestialBodyData) (N i : nat)
    (d : Vector3) :
  0 <= eccentricity data < 1 ->
  0 <= Spec.a_display data ->
  (1 <= N)%nat -> (i <= N)%nat ->
  let a := Spec.a_display data in
  let e := eccentricity data in
  let path := OrbitalMath.generateOrbitPath data N in
  let r := a * (1 - e * e) / (1 + e * cos (INR i / INR N * (2 * PI))) in
  Spec.sqDistance (nth i path d) Sample.origin = r * r /\
  a * (1 - e) <= r <= a * (1 + e) /\
  Spec.sqDistance (nth 0 path d) Sample.origin = (a * (1 - e)) * (a * (1 - e)).
Proof.
  intros He Ha HN Hi a e path r. subst path.
  rewrite !generateOrbitPath_nth by lia.
  unfold Spec.pathPoint. cbv zeta. rewrite !orient_sqDistance.
  split; [reflexivity|]. split; [now apply radius_from_nu_bounds|].
  replace (INR 0 / INR N * (2 * PI)) with 0 by (cbn; unfold Rdiv; ring).
  rewrite cos_0. fold a e.
  assert (He' : 0 <= e < 1) by exact He.
  replace (a * (1 - e * e) / (1 + e * 1)) with (a * (1 - e))
    by (field; lra).
  reflexivity.
Qed.

Lemma X9_orbit_path_within_apsides_witness :
  0 <= eccentricity (pluto celestialData) < 1 /\
  0 <= Spec.a_display (pluto celestialData) /\
  (1 <= 256)%nat /\ (100 <= 256)%nat /\
  Spec.sqDistance
    (nth 0 (OrbitalMath.generateOrbitPath (pluto celestialData) 256) Sample.origin)
    Sample.origin
  = (Spec.a_display (pluto celestialData) * (1 - eccentricity (pluto celestialData)))
    * (Spec.a_display (pluto celestialData) * (1 - eccentricity (pluto celestialData))).
Proof.
  assert (He : 0 <= eccentricity (pluto celestialData) < 1) by (cbn; lra).
  assert (Ha : 0 <= Spec.a_display (pluto celestialData))
    by (unfold Spec.a_display; cbn; lra).
  assert (HN : (1 <= 256)%nat) by lia.
  assert (Hi : (100 <= 256)%nat) by lia.
  split; [exact He|]. split; [exact Ha|]. split; [exact HN|]. split; [exact Hi|].
  exact (proj2 (proj2 (X9_orbit_path_within_apsides (pluto celestialData) 256 100
                         Sample.origin He Ha HN Hi))).
Defined.

(** X10.  For an eccentricity in [0, 1) the position computed for any
    instant lies on the curve that [generateOrbitPath] samples: it is the
    orbit-path point at the true anomaly the engine derived from its
    eccentric anomaly, whether or not the Kepler loop converged. *)
Theorem X10_planet_lies_on_its_orbit (data : CelestialBodyData) (t : R) :
  0 <= eccentricity data < 1 ->
  let e := eccentricity data in
  let E := OrbitalMath.keplerLoop 10 e
             (Spec.meanAnomaly data t) (Spec.meanAnomaly data t) in
  let nu := 2 * JS.atan2 (sqrt (1 + e) * sin (E / 2))
                         (sqrt (1 - e) * cos (E / 2)) in
  OrbitalMath.calculatePlanetPosition data t =
    Spec.orient data
      (Spec.a_display data * (1 - e * e) / (1 + e * cos nu)) nu.
Proof.
  intros He e E nu.
  exact (calculatePlanetPosition_on_orbit data t He).
Qed.

Lemma X10_planet_lies_on_its_orbit_witness :
  0 <= eccentricity (mercury celestialData) < 1 /\
  exists nu,
    OrbitalMath.calculatePlanetPosition (mercury celestialData) 1700000000000 =
      Spec.pathPoint (mercury celestialData) nu.
Proof.
  assert (He : 0 <= eccentricity (mercury celestialData) < 1) by (cbn; lra).
  split; [exact He|]. eexists.
  exact (X10_planet_lies_on_its_orbit (mercury celestialData) 1700000000000 He).
Defined.

End OrbitBehaviour.

Section OrbitTiming.

Import CelestialData.
Local Open Scope R_scope.

(** *** Exact solves *)

Lemma Rabs_zero_small : Rabs 0 < 1e-8.
Proof. rewrite Rabs_R0. lra. Qed.

(** When the seed already solves Kepler's equation the loop stops after
    its first pass and returns the seed. *)
Lemma keplerLoop_exact_seed (remaining : nat) (e M : R) :
  M - e * sin M - M = 0 ->
  OrbitalMath.keplerLoop (S remaining) e M M = M.
Proof.
  intros Hres. rewrite keplerLoop_unfold. unfold Spec.newtonCorrection.
  rewrite Hres.
  replace (0 / (1 - e * cos M)) with 0 by (unfold Rdiv; ring).
  destruct (Rlt_dec (Rabs 0) 1e-8) as [_ | Hn].
  - ring.
  - exfalso. apply Hn. exact Rabs_zero_small.
Qed.

Lemma atan2_positive_axis (x : R) : 0 < x -> JS.atan2 0 x = 0.
Proof.
  intros Hx. unfold JS.atan2.
  destruct (Rlt_dec 0 x) as [_ | Hn]; [|lra].
  unfold Rdiv. now rewrite Rmult_0_l, atan_0.
Qed.

Lemma atan2_upward_axis (y : R) : 0 < y -> JS.atan2 y 0 = PI / 2.
Proof.
  intros Hy. unfold JS.atan2.
  destruct (Rlt_dec 0 0) as [H | _]; [lra|].
  destruct (Rlt_dec 0 y) as [_ | Hn]; [reflexivity | lra].
Qed.

Lemma trueAnomaly_at_0 (e : R) : e < 1 -> Spec.trueAnomaly e 0 = 0.
Proof.
  intros He. unfold Spec.trueAnomaly.
  replace (0 / 2) with 0 by (unfold Rdiv; ring).
  rewrite sin_0, cos_0, Rmult_0_r, Rmult_1_r.
  rewrite atan2_positive_axis by (apply sqrt_lt_R0; lra). ring.
Qed.

Lemma trueAnomaly_at_PI (e : R) : -1 < e -> Spec.trueAnomaly e PI = PI.
Proof.
  intros He. unfold Spec.trueAnomaly.
  rewrite sin_PI2, cos_PI2, Rmult_0_r, Rmult_1_r.
  rewrite atan2_upward_axis by (apply sqrt_lt_R0; lra). field.
Qed.

Lemma meanAnomaly_at_epoch (data : CelestialBodyData) :
  meanLongitude data = longitudePerihelion data ->
  Spec.meanAnomaly data J2000_EPOCH = 0.
Proof.
  intros HL. unfold Spec.meanAnomaly, Spec.daysSinceEpoch,
    Spec.meanLongitudeAtEpoch_rad, Spec.longitudeOfPerihelion_rad.
  rewrite HL. unfold Rdiv. ring.
Qed.

(** X11.  Apsides round trip.  For valid elements, at an instant whose
    mean anomaly is 0 the Kepler loop is exact and the computed position
    is the first point of the orbit path (perihelion); at an instant whose
    mean anomaly is [PI] it is the middle point of a path with an even
    number of segments (aphelion). *)
Theorem X11_position_at_apsides_is_on_path
    (data : CelestialBodyData) (t : R) (N : nat) (d : Vector3) :
  0 <= eccentricity data < 1 ->
  (1 <= N)%nat ->
  (Spec.meanAnomaly data t = 0 ->
   OrbitalMath.calculatePlanetPosition data t =
     nth 0 (OrbitalMath.generateOrbitPath data N) d) /\
  (Spec.meanAnomaly data t = PI ->
   OrbitalMath.calculatePlanetPosition data t =
     nth N (OrbitalMath.generateOrbitPath data (2 * N)) d).
Proof.
  intros He HN.
  assert (HNR : INR N <> 0) by (apply not_0_INR; lia).
  split; intros HM.
  - rewrite (calculatePlanetPosition_on_orbit data t He). cbv zeta.
    rewrite HM, keplerLoop_exact_seed by (rewrite sin_0; ring).
    rewrite trueAnomaly_at_0 by lra.
    rewrite generateOrbitPath_nth by lia.
    replace (INR 0 / INR N * (2 * PI)) with 0 by (cbn; unfold Rdiv; ring).
    reflexivity.
  - rewrite (calculatePlanetPosition_on_orbit data t He). cbv zeta.
    rewrite HM, keplerLoop_exact_seed by (rewrite sin_PI; ring).
    rewrite trueAnomaly_at_PI by lra.
    rewrite generateOrbitPath_nth by lia.
    rewrite mult_INR. cbn [INR].
    replace (INR N / ((1 + 1) * INR N) * (2 * PI)) with PI by (field; exact HNR).
    reflexivity.
Qed.

Lemma X11_position_at_apsides_is_on_path_witness :
  0 <= eccentricity Sample.eccentricBody < 1 /\
  (1 <= 128)%nat /\
  Spec.meanAnomaly Sample.eccentricBody J2000_EPOCH = 0 /\
  OrbitalMath.calculatePlanetPosition Sample.eccentricBody J2000_EPOCH =
    nth 0 (OrbitalMath.generateOrbitPath Sample.eccentricBody 128) Sample.origin.
Proof.
  assert (He : 0 <= eccentricity Sample.eccentricBody < 1) by (cbn; lra).
  assert (HN : (1 <= 128)%nat) by lia.
  assert (HM : Spec.meanAnomaly Sample.eccentricBody J2000_EPOCH = 0).
  { apply meanAnomaly_at_epoch. reflexivity. }
  split; [exact He|]. split; [exact HN|]. split; [exact HM|].
  exact (proj1 (X11_position_at_apsides_is_on_path Sample.eccentricBody
                  J2000_EPOCH 128 Sample.origin He HN) HM).
Defined.

(** X12.  A circular orbit ([eccentricity = 0], positive orbital period)
    needs no iteration: the Kepler loop returns the mean anomaly itself,
    the planet is at distance [a] from the sun at every instant, and so is
    every point of an orbit path of at least one segment. *)
Theorem X12_circular_orbit (data : CelestialBodyData) (t : R) (N i : nat)
    (d : Vector3) :
  eccentricity data = 0 ->
  0 < orbitalPeriod data ->
  (1 <= N)%nat ->
  (i <= N)%nat ->
  let M := Spec.meanAnomaly data t in
  let a := Spec.a_display data in
  OrbitalMath.keplerLoop 10 (eccentricity data) M M = M /\
  Spec.sqDistance (OrbitalMath.calculatePlanetPosition data t) Sample.origin
    = a * a /\
  Spec.sqDistance (nth i (OrbitalMath.generateOrbitPath data N) d) Sample.origin
    = a * a.
Proof.
  intros He _ _ Hi M a.
  assert (Hloop : OrbitalMath.keplerLoop 10 (eccentricity data) M M = M).
  { apply keplerLoop_exact_seed. rewrite He. ring. }
  split; [exact Hloop|]. split.
  - rewrite calculatePlanetPosition_propagation. fold M. rewrite Hloop.
    unfold Spec.positionAt. cbv zeta. rewrite orient_sqDistance, He. fold a. ring.
  - rewrite generateOrbitPath_nth by exact Hi.
    unfold Spec.pathPoint. cbv zeta. rewrite orient_sqDistance, He. fold a.
    replace (a * (1 - 0 * 0) / (1 + 0 * cos (INR i / INR N * (2 * PI))))
      with a by (field; lra).
    reflexivity.
Qed.

Lemma X12_circular_orbit_witness :
  eccentricity Scenario.circularBody = 0 /\
  0 < orbitalPeriod Scenario.circularBody /\
  (1 <= 8)%nat /\
  (3 <= 8)%nat /\
  Spec.sqDistance
    (OrbitalMath.calculatePlanetPosition Scenario.circularBody 1700000000000)
    Sample.origin = 10 * 10.
Proof.
  assert (He : eccentricity Scenario.circularBody = 0) by reflexivity.
  assert (HP : 0 < orbitalPeriod Scenario.circularBody) by (cbn; lra).
  assert (HN : (1 <= 8)%nat) by lia.
  assert (Hi : (3 <= 8)%nat) by lia.
  split; [exact He|]. split; [exact HP|]. split; [exact HN|]. split; [exact Hi|].
  destruct (X12_circular_orbit Scenario.circularBody 1700000000000 8 3
              Sample.origin He HP HN Hi) as (_ & Hd & _).
  rewrite Hd. unfold Spec.a_display. cbn. lra.
Defined.

(** *** Periodicity *)

Lemma sin_shift_2PI (x : R) : sin (x + 2 * PI) = sin x.
Proof. rewrite sin_plus, cos_2PI, sin_2PI. ring. Qed.

Lemma cos_shift_2PI (x : R) : cos (x + 2 * PI) = cos x.
Proof. rewrite cos_plus, cos_2PI, sin_2PI. ring. Qed.

Lemma newtonCorrection_shift (e M E : R) :
  Spec.newtonCorrection e (M + 2 * PI) (E + 2 * PI) = Spec.newtonCorrection e M E.
Proof.
  unfold Spec.newtonCorrection. rewrite sin_shift_2PI, cos_shift_2PI.
  f_equal. ring.
Qed.

Lemma keplerLoop_shift (iterations : nat) (e M E : R) :
  OrbitalMath.keplerLoop iterations e (M + 2 * PI) (E + 2 * PI)
    = OrbitalMath.keplerLoop iterations e M E + 2 * PI.
Proof.
  revert E. induction iterations as [| k IH]; intros E.
  - reflexivity.
  - rewrite !keplerLoop_unfold, newtonCorrection_shift.
    destruct (Rlt_dec _ _) as [_ | _].
    + ring.
    + rewrite <- IH. f_equal. ring.
Qed.

Lemma atan2_opposite (y x : R) :
  JS.atan2 (- y) (- x) = JS.atan2 y x \/
  JS.atan2 (- y) (- x) = JS.atan2 y x + PI \/
  JS.atan2 (- y) (- x) = JS.atan2 y x - PI.
Proof.
  assert (Hq : x <> 0 -> - y / - x = y / x) by (intros Hx; field; exact Hx).
  unfold JS.atan2.
  repeat match goal with
         | |- context [Rlt_dec ?a ?b] => destruct (Rlt_dec a b)
         | |- context [Rle_dec ?a ?b] => destruct (Rle_dec a b)
         end;
    try (exfalso; lra);
    try rewrite Hq by lra;
    first [ left; lra | right; left; lra | right; right; lra ].
Qed.

(** Advancing the eccentric anomaly by a full turn leaves the direction of
    the true anomaly unchanged. *)
Lemma trueAnomaly_shift (e E : R) :
  cos (Spec.trueAnomaly e (E + 2 * PI)) = cos (Spec.trueAnomaly e E) /\
  sin (Spec.trueAnomaly e (E + 2 * PI)) = sin (Spec.trueAnomaly e E).
Proof.
  unfold Spec.trueAnomaly.
  replace ((E + 2 * PI) / 2) with (E / 2 + PI) by field.
  rewrite neg_sin, neg_cos.
  replace (sqrt (1 + e) * - sin (E / 2)) with (- (sqrt (1 + e) * sin (E / 2)))
    by ring.
  replace (sqrt (1 - e) * - cos (E / 2)) with (- (sqrt (1 - e) * cos (E / 2)))
    by ring.
  set (y := sqrt (1 + e) * sin (E / 2)). set (x := sqrt (1 - e) * cos (E / 2)).
  destruct (atan2_opposite y x) as [-> | [-> | ->]].
  - split; reflexivity.
  - replace (2 * (JS.atan2 y x + PI)) with (2 * JS.atan2 y x + 2 * PI) by ring.
    split; [apply cos_shift_2PI | apply sin_shift_2PI].
  - split.
    + rewrite <- (cos_shift_2PI (2 * (JS.atan2 y x - PI))). f_equal. ring.
    + rewrite <- (sin_shift_2PI (2 * (JS.atan2 y x - PI))). f_equal. ring.
Qed.

Lemma orient_same_direction (data : CelestialBodyData) (r nu1 nu2 : R) :
  cos nu1 = cos nu2 -> sin nu1 = sin nu2 ->
  Spec.orient data r nu1 = Spec.orient data r nu2.
Proof.
  intros Hc Hs. unfold Spec.orient. cbv zeta.
  now rewrite !cos_plus, !sin_plus, Hc, Hs.
Qed.

Lemma meanAnomaly_after_period (data : CelestialBodyData) (t : R) :
  orbitalPeriod data <> 0 ->
  Spec.meanAnomaly data (t + orbitalPeriod data * Spec.ONE_DAY)
    = Spec.meanAnomaly data t + 2 * PI.
Proof.
  intros HP. unfold Spec.meanAnomaly, Spec.meanMotion, Spec.daysSinceEpoch,
    Spec.ONE_DAY.
  field. exact HP.
Qed.

(** X13.  Orbital periodicity for moderate eccentricities.  For an
    eccentricity in [0, 0.9] (where the Kepler loop converges well before
    its cap) and a positive orbital period, one period later the planet is
    back at the same position; the same holds for the satellite about an
    unmoved primary. *)
Theorem X13_position_repeats_after_one_period
    (data : CelestialBodyData) (earthPosition : Vector3) (t : R) :
  0 <= eccentricity data <= 0.9 ->
  0 < orbitalPeriod data ->
  let t' := t + orbitalPeriod data * Spec.ONE_DAY in
  OrbitalMath.calculatePlanetPosition data t'
    = OrbitalMath.calculatePlanetPosition data t /\
  OrbitalMath.calculateMoonPosition data earthPosition t'
    = OrbitalMath.calculateMoonPosition data earthPosition t.
Proof.
  intros _ HPpos t'. subst t'.
  assert (HP : orbitalPeriod data <> 0) by lra.
  pose proof (meanAnomaly_after_period data t HP) as HM.
  set (e := eccentricity data).
  set (M := Spec.meanAnomaly data t) in *.
  assert (HE : OrbitalMath.keplerLoop 10 e (M + 2 * PI) (M + 2 * PI)
               = OrbitalMath.keplerLoop 10 e M M + 2 * PI)
    by apply keplerLoop_shift.
  destruct (trueAnomaly_shift e (OrbitalMath.keplerLoop 10 e M M)) as [Hc Hs].
  split.
  - rewrite !calculatePlanetPosition_propagation. fold e M. rewrite HM, HE.
    unfold Spec.positionAt. cbv zeta. fold e. rewrite cos_shift_2PI.
    now apply orient_same_direction.
  - unfold OrbitalMath.calculateMoonPosition. cbv zeta.
    rewrite !JS_or_some_zero, !JS_or_zero, one_day_ms.
    change (Spec.orDefault (meanLongitude data) 0 * PI / 180
            + 2 * PI / orbitalPeriod data
              * ((t + orbitalPeriod data * Spec.ONE_DAY - J2000_EPOCH)
                 / Spec.ONE_DAY)
            - Spec.orDefault (longitudePerihelion data) 0 * PI / 180)
      with (Spec.meanAnomaly data (t + orbitalPeriod data * Spec.ONE_DAY)).
    change (Spec.orDefault (meanLongitude data) 0 * PI / 180
            + 2 * PI / orbitalPeriod data * ((t - J2000_EPOCH) / Spec.ONE_DAY)
            - Spec.orDefault (longitudePerihelion data) 0 * PI / 180)
      with M.
    fold e. rewrite HM, HE.
    change (2 * JS.atan2
              (sqrt (1 + e)
               * sin ((OrbitalMath.keplerLoop 10 e M M + 2 * PI) / 2))
              (sqrt (1 - e)
               * cos ((OrbitalMath.keplerLoop 10 e M M + 2 * PI) / 2)))
      with (Spec.trueAnomaly e (OrbitalMath.keplerLoop 10 e M M + 2 * PI)).
    change (2 * JS.atan2
              (sqrt (1 + e) * sin (OrbitalMath.keplerLoop 10 e M M / 2))
              (sqrt (1 - e) * cos (OrbitalMath.keplerLoop 10 e M M / 2)))
      with (Spec.trueAnomaly e (OrbitalMath.keplerLoop 10 e M M)).
    now rewrite cos_shift_2PI, Hc, Hs.
Qed.

Lemma X13_position_repeats_after_one_period_witness :
  0 <= eccentricity (earth celestialData) <= 0.9 /\
  0 < orbitalPeriod (earth celestialData) /\
  OrbitalMath.calculatePlanetPosition (earth celestialData)
    (1700000000000 + orbitalPeriod (earth celestialData) * Spec.ONE_DAY)
  = OrbitalMath.calculatePlanetPosition (earth celestialData) 1700000000000.
Proof.
  assert (He : 0 <= eccentricity (earth celestialData) <= 0.9) by (cbn; lra).
  assert (HP : 0 < orbitalPeriod (earth celestialData)) by (cbn; lra).
  split; [exact He|]. split; [exact HP|].
  exact (proj1 (X13_position_repeats_after_one_period (earth celestialData)
                  Sample.origin 1700000000000 He HP)).
Defined.

End OrbitTiming.

Section RotationAndSatellite.

Import CelestialData.
Local Open Scope R_scope.

(** X14.  For a non-zero rotation period the spin angle is 0 at the epoch
    and changes by one full turn per rotation period: by [+ 2 PI] for a
    positive period and by [- 2 PI] for a negative (retrograde) one. *)
Theorem X14_one_turn_per_rotation_period (data : CelestialBodyData) (t : R) :
  rotationPeriod data <> 0 ->
  let t' := t + Rabs (rotationPeriod data) * Spec.ONE_DAY in
  OrbitalMath.calculateRotationAngle data J2000_EPOCH = 0 /\
  (0 < rotationPeriod data ->
   OrbitalMath.calculateRotationAngle data t'
     = OrbitalMath.calculateRotationAngle data t + 2 * PI) /\
  (rotationPeriod data < 0 ->
   OrbitalMath.calculateRotationAngle data t'
     = OrbitalMath.calculateRotationAngle data t - 2 * PI).
Proof.
  intros Hp t'. subst t'.
  assert (Habs : Rabs (rotationPeriod data) <> 0) by now apply Rabs_no_R0.
  rewrite !calculateRotationAngle_cases.
  unfold Spec.rotationAngle, Spec.daysSinceEpoch, Spec.ONE_DAY.
  split; [|split].
  - destruct (Rlt_dec 0 (rotationPeriod data)); field; exact Habs.
  - intros Hpos. destruct (Rlt_dec 0 (rotationPeriod data)) as [_ | Hn]; [|lra].
    field. exact Habs.
  - intros Hneg. destruct (Rlt_dec 0 (rotationPeriod data)) as [Hn | _]; [lra|].
    field. exact Habs.
Qed.

Lemma X14_one_turn_per_rotation_period_witness :
  rotationPeriod (uranus celestialData) <> 0 /\
  rotationPeriod (uranus celestialData) < 0 /\
  OrbitalMath.calculateRotationAngle (uranus celestialData)
    (1700000000000 + Rabs (rotationPeriod (uranus celestialData)) * Spec.ONE_DAY)
  = OrbitalMath.calculateRotationAngle (uranus celestialData) 1700000000000
    - 2 * PI.
Proof.
  assert (Hneg : rotationPeriod (uranus celestialData) < 0) by (cbn; lra).
  assert (Hp : rotationPeriod (uranus celestialData) <> 0) by lra.
  split; [exact Hp|]. split; [exact Hneg|].
  exact (proj2 (proj2 (X14_one_turn_per_rotation_period (uranus celestialData)
                         1700000000000 Hp)) Hneg).
Defined.

(** X15.  The satellite is placed relative to the primary it is given:
    for valid elements (eccentricity in [0, 1), positive orbital period)
    with a non-negative semi-major axis, moving the primary by a vector
    moves the satellite by the same vector, and its distance from the
    primary stays between [D (1 - e)] and [D (1 + e)], where
    [D = semiMajorAxis * distanceScale * 45]. *)
Theorem X15_satellite_follows_primary
    (moonData : CelestialBodyData) (earthPosition shift : Vector3) (t : R) :
  Spec.valid_elements moonData ->
  0 <= Spec.a_display moonData ->
  let D := Spec.a_display moonData * 45 in
  let e := eccentricity moonData in
  let moved := mkVector3 (vx earthPosition + vx shift)
                         (vy earthPosition + vy shift)
                         (vz earthPosition + vz shift) in
  let p := OrbitalMath.calculateMoonPosition moonData earthPosition t in
  OrbitalMath.calculateMoonPosition moonData moved t
    = mkVector3 (vx p + vx shift) (vy p + vy shift) (vz p + vz shift) /\
  (D * (1 - e)) * (D * (1 - e))
    <= Spec.sqDistance p earthPosition
    <= (D * (1 + e)) * (D * (1 + e)).
Proof.
  intros [He _] Ha D e moved p. split.
  - subst p moved. unfold OrbitalMath.calculateMoonPosition. cbv zeta.
    cbn [vx vy vz]. f_equal; ring.
  - subst p. rewrite calculateMoonPosition_sqDistance.
    assert (HD : OrbitalMath.calculateMoonPosition_moonDistance moonData = D).
    { subst D. unfold OrbitalMath.calculateMoonPosition_moonDistance,
        Spec.a_display. now rewrite JS_or_zero. }
    rewrite HD. fold e.
    assert (HD0 : 0 <= D) by (subst D; lra).
    apply sq_le_between.
    + apply Rmult_le_pos; [exact HD0 | subst e; lra].
    + now apply radius_from_E_bounds.
Qed.

Lemma X15_satellite_follows_primary_witness :
  Spec.valid_elements (moon celestialData) /\
  0 <= Spec.a_display (moon celestialData) /\
  (1.1565 * (1 - 0.0549)) * (1.1565 * (1 - 0.0549))
    <= Spec.sqDistance
         (OrbitalMath.calculateMoonPosition (moon celestialData)
            (mkVector3 10 0 0) 1700000000000)
         (mkVector3 10 0 0)
    <= (1.1565 * (1 + 0.0549)) * (1.1565 * (1 + 0.0549)).
Proof.
  assert (He : Spec.valid_elements (moon celestialData))
    by (unfold Spec.valid_elements; cbn; lra).
  assert (Ha : 0 <= Spec.a_display (moon celestialData))
    by (unfold Spec.a_display; cbn; lra).
  split; [exact He|]. split; [exact Ha|].
  pose proof (proj2 (X15_satellite_follows_primary (moon celestialData)
                       (mkVector3 10 0 0) Sample.origin 1700000000000 He Ha))
    as Hb.
  cbv zeta in Hb.
  replace (Spec.a_display (moon celestialData) * 45) with 1.1565 in Hb
    by (unfold Spec.a_display; cbn; lra).
  replace (eccentricity (moon celestialData)) with 0.0549 in Hb by reflexivity.
  exact Hb.
Defined.

(** X16.  The height of a planet above the ecliptic (the vertical scene
    coordinate) is at most [a (1 + e) |sin i|] in absolute value for valid
    elements (eccentricity in [0, 1), positive orbital period) with a
    non-negative semi-major axis; with zero or absent inclination the
    planet and every point of an orbit path of at least one segment lie in
    the ecliptic plane. *)
Theorem X16_height_above_ecliptic (data : CelestialBodyData) (t : R)
    (N i : nat) (d : Vector3) :
  Spec.valid_elements data ->
  0 <= Spec.a_display data ->
  (1 <= N)%nat ->
  (i <= N)%nat ->
  let a := Spec.a_display data in
  let e := eccentricity data in
  let p := OrbitalMath.calculatePlanetPosition data t in
  Rabs (vy p) <= a * (1 + e) * Rabs (sin (Spec.inclination_rad data)) /\
  (Spec.orDefault (inclination data) 0 = 0 ->
   vy p = 0 /\ vy (nth i (OrbitalMath.generateOrbitPath data N) d) = 0).
Proof.
  intros [He _] Ha _ Hi a e p. split.
  - subst p. rewrite calculatePlanetPosition_propagation.
    unfold Spec.positionAt, Spec.orient. cbv zeta. cbn [vy].
    set (E := OrbitalMath.keplerLoop 10 _ _ _).
    set (u := Spec.trueAnomaly _ _ + _).
    fold a e.
    destruct (radius_from_E_bounds a e E Ha He) as [Hlo Hhi].
    assert (Hr0 : 0 <= a * (1 - e * cos E)).
    { apply Rle_trans with (a * (1 - e)); [|exact Hlo].
      apply Rmult_le_pos; [exact Ha | subst e; lra]. }
    rewrite (Rabs_mult (a * (1 - e * cos E))), (Rabs_mult (sin u)).
    rewrite (Rabs_right (a * (1 - e * cos E))) by lra.
    pose proof (Rabs_pos (sin (Spec.inclination_rad data))) as Hsi.
    assert (Hsu : Rabs (sin u) <= 1).
    { apply Rabs_le. pose proof (SIN_bound u). lra. }
    pose proof (Rabs_pos (sin u)) as Hsu0.
    apply Rle_trans with
      (a * (1 - e * cos E) * (1 * Rabs (sin (Spec.inclination_rad data)))).
    + apply Rmult_le_compat_l; [exact Hr0|].
      apply Rmult_le_compat_r; assumption.
    + rewrite Rmult_1_l. apply Rmult_le_compat_r; assumption.
  - intros Hinc.
    assert (Hs : sin (Spec.inclination_rad data) = 0).
    { unfold Spec.inclination_rad, Spec.radians. rewrite Hinc.
      replace (0 * PI / 180) with 0 by (unfold Rdiv; ring). apply sin_0. }
    split.
    + subst p. rewrite calculatePlanetPosition_propagation.
      unfold Spec.positionAt, Spec.orient. cbv zeta. cbn [vy].
      rewrite Hs. ring.
    + rewrite generateOrbitPath_nth by exact Hi.
      unfold Spec.pathPoint, Spec.orient. cbv zeta. cbn [vy].
      rewrite Hs. ring.
Qed.

Lemma X16_height_above_ecliptic_witness :
  Spec.valid_elements Scenario.circularBody /\
  0 <= Spec.a_display Scenario.circularBody /\
  (1 <= 16)%nat /\
  (5 <= 16)%nat /\
  Spec.orDefault (inclination Scenario.circularBody) 0 = 0 /\
  vy (OrbitalMath.calculatePlanetPosition Scenario.circularBody 1700000000000) = 0.
Proof.
  assert (He : Spec.valid_elements Scenario.circularBody)
    by (unfold Spec.valid_elements; cbn; lra).
  assert (Ha : 0 <= Spec.a_display Scenario.circularBody)
    by (unfold Spec.a_display; cbn; lra).
  assert (HN : (1 <= 16)%nat) by lia.
  assert (Hi : (5 <= 16)%nat) by lia.
  assert (Hinc : Spec.orDefault (inclination Scenario.circularBody) 0 = 0)
    by reflexivity.
  split; [exact He|]. split; [exact Ha|]. split; [exact HN|].
  split; [exact Hi|]. split; [exact Hinc|].
  exact (proj1 (proj2 (X16_height_above_ecliptic Scenario.circularBody
                         1700000000000 16 5 Sample.origin He Ha HN Hi) Hinc)).
Defined.

End RotationAndSatellite.

(* ================================================================== *)
(** ** Properties of the asteroid belt and of the per-frame driver *)
(* ================================================================== *)

Section Belt.

Import AsteroidBelt.
Local Open Scope R_scope.

(** The radius of the circle an asteroid moves on. *)
Lemma updateAsteroid_keeps_orbit (currentTime : R) (mode : TimeSystem.TimeMode)
    (a : Asteroid) :
  let a' := updateAsteroid currentTime mode a in
  distance (userData a') = distance (userData a) /\
  radiusVariation (userData a') = radiusVariation (userData a) /\
  heightVariation (userData a') = heightVariation (userData a) /\
  initialAngle (userData a') = initialAngle (userData a) /\
  rotationSpeed (userData a') = rotationSpeed (userData a) /\
  asteroidSize a' = asteroidSize a /\
  vy (position a') = heightVariation (userData a) /\
  sqAxisDistance (position a')
    = (distance (userData a) + radiusVariation (userData a))
      * (distance (userData a) + radiusVariation (userData a)).
Proof.
  cbv zeta. unfold updateAsteroid. cbn.
  repeat (split; [reflexivity|]).
  unfold sqAxisDistance. cbn [vx vz].
  set (rho := distance (userData a) + radiusVariation (userData a)).
  set (ang := match mode with
              | TimeSystem.static => _
              | TimeSystem.animation => _
              end).
  pose proof (sin2_cos2 ang) as H. unfold Rsqr in H.
  replace (rho * cos ang * (rho * cos ang) + rho * sin ang * (rho * sin ang))
    with (rho * rho * (sin ang * sin ang + cos ang * cos ang)) by ring.
  rewrite H. ring.
Qed.

Lemma updateAsteroid_onBeltCircle (rho h currentTime : R)
    (mode : TimeSystem.TimeMode) (a : Asteroid) :
  onBeltCircle rho h a -> onBeltCircle rho h (updateAsteroid currentTime mode a).
Proof.
  intros (Hrho & Hh & _ & _).
  destruct (updateAsteroid_keeps_orbit currentTime mode a)
    as (Hd & Hr & Hhv & _ & _ & _ & Hy & Hsq).
  unfold onBeltCircle. rewrite Hd, Hr, Hhv, Hy, Hsq, Hrho, Hh.
  repeat split; reflexivity.
Qed.

Lemma updateAll_onBeltCircle (rho h size : R)
    (updates : list (R * TimeSystem.TimeMode)) (a : Asteroid) :
  onBeltCircle rho h a -> asteroidSize a = size ->
  onBeltCircle rho h (updateAll updates a) /\
  asteroidSize (updateAll updates a) = size.
Proof.
  unfold updateAll. revert a.
  induction updates as [| u us IH]; intros a Hon Hsize; cbn [fold_left].
  - split; assumption.
  - apply IH.
    + now apply updateAsteroid_onBeltCircle.
    + exact Hsize.
Qed.

(** X17.  An asteroid created from draws in [0, 1) sits on a circle about
    the vertical axis whose radius is between 21.85 and 32.15 display
    units, at a height between -0.25 and 0.25, with a size between 0.04
    and 0.1; and it stays on that very circle, at that height, through any
    sequence of updates in either time mode. *)
Theorem X17_asteroid_stays_in_belt (draws : Draws)
    (updates : list (R * TimeSystem.TimeMode)) :
  unit_draws draws ->
  let created := createAsteroid draws in
  let rho := distance (userData created) + radiusVariation (userData created) in
  let h := heightVariation (userData created) in
  let final := updateAll updates created in
  21.85 <= rho < 32.15 /\
  -0.25 <= h < 0.25 /\
  0.04 <= asteroidSize created < 0.1 /\
  sqAxisDistance (position final) = rho * rho /\
  vy (position final) = h /\
  asteroidSize final = asteroidSize created.
Proof.
  intros (Ha & Hd & Hh & Hr & Hs & Hv) created rho h final.
  unfold unit_draw in *.
  assert (Hrho : rho = 22 + draw_distance draws * 10
                       + (draw_radius draws - 0.5) * 0.3).
  { subst rho created. cbn. lra. }
  assert (Hhv : h = (draw_height draws - 0.5) * 0.5) by reflexivity.
  assert (Hsz : asteroidSize created = 0.04 + draw_size draws * 0.06)
    by reflexivity.
  split; [lra|]. split; [lra|]. split; [lra|].
  assert (Hinit : onBeltCircle rho h created).
  { unfold onBeltCircle.
    split; [reflexivity|]. split; [reflexivity|]. split; [reflexivity|].
    subst rho created. unfold sqAxisDistance. cbn.
    set (ang := draw_angle draws * 2 * PI).
    pose proof (sin2_cos2 ang) as H. unfold Rsqr in H.
    set (r := 2.2 * 10 + draw_distance draws * (3.2 * 10 - 2.2 * 10)
              + (draw_radius draws - 0.5) * 0.3).
    replace (r * cos ang * (r * cos ang) + r * sin ang * (r * sin ang))
      with (r * r * (sin ang * sin ang + cos ang * cos ang)) by ring.
    rewrite H. ring. }
  destruct (updateAll_onBeltCircle rho h (asteroidSize created) updates created
              Hinit eq_refl) as ((_ & _ & Hy & Hsq) & Hsize).
  split; [exact Hsq|]. split; [exact Hy | exact Hsize].
Qed.

Lemma X17_asteroid_stays_in_belt_witness :
  unit_draws Sample.middleDraws /\
  sqAxisDistance
    (position
       (updateAsteroid 1700000000000 TimeSystem.animation
          (updateAsteroid 0 TimeSystem.static
             (createAsteroid Sample.middleDraws))))
  = 27 * 27.
Proof.
  assert (Hu : unit_draws Sample.middleDraws).
  { unfold unit_draws, unit_draw. cbn. lra. }
  split; [exact Hu|].
  destruct (X17_asteroid_stays_in_belt Sample.middleDraws
              [(0, TimeSystem.static); (1700000000000, TimeSystem.animation)] Hu)
    as (_ & _ & _ & Hsq & _).
  unfold updateAll in Hsq. cbn [fold_left fst snd] in Hsq.
  rewrite Hsq. cbn. lra.
Defined.

(** X18.  In animation mode the place of an asteroid on its circle is a
    function of the clock alone: the angle is the initial angle plus one
    turn per [4 * 365] days, whatever angle static-mode drift had left, so
    updating again with the same time changes no position, and the
    asteroid is back at the same place [4 * 365] days later.  In static
    mode every update adds [rotationSpeed] to the angle. *)
Theorem X18_asteroid_angle (currentTime earlier : R)
    (mode : TimeSystem.TimeMode) (a : Asteroid) :
  let a1 := updateAsteroid currentTime TimeSystem.animation a in
  angle (userData a1)
    = currentTime / Spec.ONE_DAY / 1460 * (2 * PI) + initialAngle (userData a) /\
  position (updateAsteroid currentTime TimeSystem.animation
              (updateAsteroid earlier mode a)) = position a1 /\
  position (updateAsteroid (currentTime + 1460 * Spec.ONE_DAY)
              TimeSystem.animation a) = position a1 /\
  angle (userData (updateAsteroid currentTime TimeSystem.static a))
    = angle (userData a) + rotationSpeed (userData a).
Proof.
  cbv zeta. split; [|split; [|split]].
  - unfold updateAsteroid. cbn. rewrite one_day_ms.
    replace (4 * 365) with 1460 by lra. unfold Rdiv. ring.
  - unfold updateAsteroid. cbn. reflexivity.
  - unfold updateAsteroid. cbn. rewrite one_day_ms.
    set (rho := distance (userData a) + radiusVariation (userData a)).
    replace ((currentTime + 1460 * Spec.ONE_DAY) / Spec.ONE_DAY / (4 * 365) * 2 * PI
             + initialAngle (userData a))
      with (currentTime / Spec.ONE_DAY / (4 * 365) * 2 * PI
            + initialAngle (userData a) + 2 * PI)
      by (unfold Spec.ONE_DAY; field).
    now rewrite cos_shift_2PI, sin_shift_2PI.
  - reflexivity.
Qed.

End Belt.

Section Frame.

Import CelestialData.
Import SolarSystem.
Local Open Scope R_scope.

Lemma find_map_stable {A : Type} (p : A -> bool) (f : A -> A) (l : list A) :
  (forall x, p (f x) = p x) ->
  find p (map f l) = option_map f (find p l).
Proof.
  intros Hp. induction l as [| x l IH]; cbn; [reflexivity|].
  rewrite Hp. destruct (p x); [reflexivity | exact IH].
Qed.

Lemma getEarthPlanet_updatePlanets (currentTime : R) (closeView : bool)
    (bodies : list Body) :
  getEarthPlanet (updatePlanets currentTime closeView bodies)
    = option_map (updatePlanet currentTime closeView) (getEarthPlanet bodies).
Proof.
  unfold getEarthPlanet, updatePlanets.
  apply find_map_stable. intros b. reflexivity.
Qed.

Lemma updatePlanet_twice (currentTime : R) (closeView : bool) (b : Body) :
  updatePlanet currentTime closeView (updatePlanet currentTime closeView b)
    = updatePlanet currentTime closeView b.
Proof.
  unfold updatePlanet. cbn. destruct closeView; reflexivity.
Qed.

Lemma updatePlanets_twice (currentTime : R) (closeView : bool) (bodies : list Body) :
  updatePlanets currentTime closeView (updatePlanets currentTime closeView bodies)
    = updatePlanets currentTime closeView bodies.
Proof.
  unfold updatePlanets. rewrite map_map.
  apply map_ext. intros b. apply updatePlanet_twice.
Qed.

Lemma updateMoon_twice (currentTime : R) (closeView : bool)
    (bodies : list Body) (m : option Body) :
  updateMoon currentTime closeView bodies
    (updateMoon currentTime closeView bodies m)
  = updateMoon currentTime closeView bodies m.
Proof.
  unfold updateMoon. destruct m as [moonBody|]; [|reflexivity].
  destruct (getEarthPlanet bodies) as [earthPlanet|]; cbn.
  - destruct closeView; reflexivity.
  - reflexivity.
Qed.

Lemma updateSun_twice (currentTime : R) (closeView : bool) (s : option Body) :
  updateSun currentTime closeView (updateSun currentTime closeView s)
    = updateSun currentTime closeView s.
Proof.
  unfold updateSun. destruct s as [sunBody|]; [|reflexivity].
  destruct closeView; reflexivity.
Qed.

(** X19.  Within one frame the moon is placed about the earth's position
    of that same frame: with a planet named as the earth in the scene and a
    moon present, after [animate] every planet is where
    [calculatePlanetPosition] puts it at the clock reading, the planets
    keep their [userData], and the moon is at
    [calculateMoonPosition] of its own elements about the earth's new
    position. *)
Theorem X19_moon_follows_earth_within_frame
    (now : Z) (clock : TimeSystem.t) (closeView : bool) (scene : Scene)
    (earthBody moonBody : Body) :
  getEarthPlanet (planets scene) = Some earthBody ->
  moon scene = Some moonBody ->
  let T := IZR (TimeSystem.getSimulationTime now clock) in
  let scene' := animate now clock closeView scene in
  let earthNow := OrbitalMath.calculatePlanetPosition (userData earthBody) T in
  map userData (planets scene') = map userData (planets scene) /\
  map position (planets scene')
    = map (fun b => OrbitalMath.calculatePlanetPosition (userData b) T)
          (planets scene) /\
  option_map position (getEarthPlanet (planets scene')) = Some earthNow /\
  option_map userData (moon scene') = Some (userData moonBody) /\
  option_map position (moon scene')
    = Some (OrbitalMath.calculateMoonPosition (userData moonBody) earthNow T).
Proof.
  intros He Hm T scene' earthNow. subst scene'. unfold animate. cbv zeta.
  cbn [planets moon]. fold T.
  split; [|split; [|split]].
  - unfold updatePlanets. rewrite map_map. apply map_ext. reflexivity.
  - unfold updatePlanets. rewrite map_map. apply map_ext. reflexivity.
  - rewrite getEarthPlanet_updatePlanets, He. reflexivity.
  - unfold updateMoon. rewrite Hm, getEarthPlanet_updatePlanets, He.
    cbn. split; reflexivity.
Qed.

Lemma X19_moon_follows_earth_within_frame_witness :
  let scene := initialScene celestialData [] in
  let T := IZR Scenario.T0 in
  (exists earthBody, getEarthPlanet (planets scene) = Some earthBody /\
                     userData earthBody = earth celestialData) /\
  (exists moonBody, moon scene = Some moonBody) /\
  option_map position
    (moon (animate Scenario.T0 (TimeSystem.init Scenario.T0) false scene))
  = Some (OrbitalMath.calculateMoonPosition (CelestialData.moon celestialData)
            (OrbitalMath.calculatePlanetPosition (earth celestialData) T) T).
Proof.
  intros scene T.
  assert (He : getEarthPlanet (planets scene)
               = Some (fresh (CelestialObjects.createPlanet (earth celestialData))))
    by reflexivity.
  assert (Hm : moon scene
               = Some (fresh (CelestialObjects.createMoon celestialData)))
    by reflexivity.
  split; [eexists; split; [exact He | reflexivity]|].
  split; [eexists; exact Hm|].
  exact (proj2 (proj2 (proj2 (proj2
           (X19_moon_follows_earth_within_frame Scenario.T0
              (TimeSystem.init Scenario.T0) false scene _ _ He Hm))))).
Defined.

(** X20.  Without a planet named as the earth, a frame outside close view
    leaves the moon exactly as it was - [updateMoon] returns early whenever
    [getEarthPlanet] finds nothing - while every planet is still moved to
    [calculatePlanetPosition] of its elements at the clock reading and spun
    to [calculateRotationAngle], its mesh radius and elements unchanged. *)
Theorem X20_moon_untouched_without_earth
    (now : Z) (clock : TimeSystem.t) (scene : Scene) :
  getEarthPlanet (planets scene) = None ->
  let T := IZR (TimeSystem.getSimulationTime now clock) in
  let scene' := animate now clock false scene in
  moon scene' = moon scene /\
  getEarthPlanet (planets scene') = None /\
  planets scene'
    = map (fun b =>
             {| mesh :=
                  {| CelestialObjects.sphereRadius :=
                       CelestialObjects.sphereRadius (mesh b);
                     CelestialObjects.userData := userData b;
                     CelestialObjects.position :=
                       OrbitalMath.calculatePlanetPosition (userData b) T |};
                rotation_y :=
                  OrbitalMath.calculateRotationAngle (userData b) T |})
          (planets scene).
Proof.
  intros He T scene'. subst scene'. unfold animate. cbv zeta. cbn [planets moon].
  fold T. split; [|split].
  - unfold updateMoon. rewrite getEarthPlanet_updatePlanets, He. cbn.
    destruct (moon scene); reflexivity.
  - now rewrite getEarthPlanet_updatePlanets, He.
  - unfold updatePlanets. apply map_ext. intros b. reflexivity.
Qed.

Lemma X20_moon_untouched_without_earth_witness :
  let scene :=
    {| sun := None;
       planets := [fresh (CelestialObjects.createPlanet (mars celestialData))];
       moon := Some (fresh (CelestialObjects.createMoon celestialData));
       asteroids := [] |} in
  getEarthPlanet (planets scene) = None /\
  moon (animate Scenario.T0 Scenario.runningClock false scene) = moon scene /\
  map position (planets (animate Scenario.T0 Scenario.runningClock false scene))
    = [OrbitalMath.calculatePlanetPosition (mars celestialData)
         (IZR (TimeSystem.getSimulationTime Scenario.T0 Scenario.runningClock))].
Proof.
  intros scene.
  assert (He : getEarthPlanet (planets scene) = None) by reflexivity.
  split; [exact He|].
  destruct (X20_moon_untouched_without_earth Scenario.T0
              Scenario.runningClock scene He) as (Hmoon & _ & Hplanets).
  split; [exact Hmoon|].
  cbv zeta in Hplanets. rewrite Hplanets. reflexivity.
Defined.

(** X21.  While the clock is paused the scene is frozen: outside close
    view, frames drawn at different wall-clock times produce the same scene
    from the same input, and a further frame changes no sun, planet or
    moon and no asteroid position. *)
Theorem X21_paused_scene_is_frozen
    (now1 now2 : Z) (clock : TimeSystem.t) (scene : Scene) :
  TimeSystem.clockState clock = TimeSystem.ACCELERATED_PAUSED ->
  let frame1 := animate now1 clock false scene in
  let frame2 := animate now2 clock false frame1 in
  animate now2 clock false scene = frame1 /\
  planets frame2 = planets frame1 /\
  moon frame2 = moon frame1 /\
  sun frame2 = sun frame1 /\
  map AsteroidBelt.position (asteroids frame2)
    = map AsteroidBelt.position (asteroids frame1).
Proof.
  intros Hp frame1 frame2.
  apply clockState_paused in Hp as [Hmode Hpaused].
  assert (Htime : TimeSystem.getSimulationTime now2 clock
                  = TimeSystem.getSimulationTime now1 clock).
  { unfold TimeSystem.getSimulationTime. now rewrite Hmode, Hpaused. }
  subst frame2 frame1. unfold animate. cbv zeta.
  cbn [planets moon sun asteroids]. rewrite Htime, Hmode.
  split; [reflexivity|]. split; [apply updatePlanets_twice|].
  split; [rewrite updatePlanets_twice; apply updateMoon_twice|].
  split; [apply updateSun_twice|].
  unfold AsteroidBelt.updateAsteroids. rewrite !map_map.
  apply map_ext. intros a. reflexivity.
Qed.

Lemma X21_paused_scene_is_frozen_witness :
  let scene := initialScene celestialData [Sample.middleDraws] in
  TimeSystem.clockState Scenario.pausedClock = TimeSystem.ACCELERATED_PAUSED /\
  animate (Scenario.T0 + 90000) Scenario.pausedClock false scene
    = animate (Scenario.T0 + 2000) Scenario.pausedClock false scene.
Proof.
  intros scene.
  assert (Hp : TimeSystem.clockState Scenario.pausedClock
               = TimeSystem.ACCELERATED_PAUSED) by reflexivity.
  split; [exact Hp|].
  exact (proj1 (X21_paused_scene_is_frozen (Scenario.T0 + 2000)
                  (Scenario.T0 + 90000) Scenario.pausedClock scene Hp)).
Defined.

End Frame.

Section SceneBehaviour.

Import CelestialData.
Local Open Scope R_scope.

(** X22.  Every orbit line built by [createOrbits] is a closed polyline of
    257 points (256 segments), one line per planet of the table, whatever
    the table holds. *)
Theorem X22_orbit_lines_are_closed (table : CelestialDataCollection)
    (orbit : list Vector3) (d : Vector3) :
  In orbit (CelestialObjects.createOrbits table) ->
  length (CelestialObjects.createOrbits table) = 9%nat /\
  length orbit = 257%nat /\
  nth 0 orbit d = nth 256 orbit d.
Proof.
  intros Hin. split; [reflexivity|].
  unfold CelestialObjects.createOrbits in Hin.
  apply in_map_iff in Hin as (data & <- & _).
  split; [apply generateOrbitPath_length|].
  rewrite !generateOrbitPath_nth by lia.
  replace (INR 0 / INR 256 * (2 * PI)) with 0 by (cbn [INR]; unfold Rdiv; ring).
  replace (INR 256 / INR 256 * (2 * PI)) with (2 * PI)
    by (field; apply not_0_INR; lia).
  symmetry. apply pathPoint_closed.
Qed.

Lemma X22_orbit_lines_are_closed_witness :
  let orbit := OrbitalMath.generateOrbitPath (mercury Scenario.malformedTable) 256 in
  In orbit (CelestialObjects.createOrbits Scenario.malformedTable) /\
  length orbit = 257%nat /\
  nth 0 orbit Sample.origin = nth 256 orbit Sample.origin.
Proof.
  intros orbit.
  assert (Hin : In orbit (CelestialObjects.createOrbits Scenario.malformedTable))
    by (left; reflexivity).
  split; [exact Hin|].
  exact (proj2 (X22_orbit_lines_are_closed Scenario.malformedTable orbit
                  Sample.origin Hin)).
Defined.

(** X23.  What the Kepler loop guarantees on exit, for an eccentricity in
    [0, 1): it returns one of the first ten Newton iterates; unless all ten
    passes were used, the returned value is within [1e-8] of the previous
    iterate, and that iterate satisfies Kepler's equation with a residual
    below [2e-8]. *)
Theorem X23_kepler_loop_exit (e M : R) :
  0 <= e < 1 ->
  let E := OrbitalMath.keplerLoop 10 e M M in
  exists n : nat,
    (n < 10)%nat /\
    E = Spec.newtonIterate e M (S n) /\
    let previous := Spec.newtonIterate e M n in
    (S n = 10%nat \/
     (Rabs (E - previous) < 1e-8 /\
      Rabs (previous - e * sin previous - M) < 2 * 1e-8)).
Proof.
  intros He E.
  destruct (keplerLoop_iterates e M 9 0) as (n & Hn & Heq & _ & Hlast).
  destruct n as [| n]; [lia|].
  exists n. split; [lia|]. split; [exact Heq|]. cbv zeta.
  destruct Hlast as [H10 | Hconv]; [left; lia|]. right.
  replace (S n - 1)%nat with n in Hconv by lia.
  set (previous := Spec.newtonIterate e M n) in *.
  set (c := Spec.newtonCorrection e M previous) in *.
  assert (HE : E = previous - c).
  { change (OrbitalMath.keplerLoop 10 e M (Spec.newtonIterate e M 0))
      with E in Heq.
    rewrite Heq. reflexivity. }
  pose proof (COS_bound previous) as [Hlo Hhi].
  assert (H1 : 0 <= e * (1 - cos previous)) by (apply Rmult_le_pos; lra).
  assert (H2 : 0 <= e * (1 + cos previous)) by (apply Rmult_le_pos; lra).
  set (D := 1 - e * cos previous).
  assert (HD : 0 < D < 2) by (subst D; lra).
  assert (Hnum : previous - e * sin previous - M = c * D).
  { subst c D. unfold Spec.newtonCorrection. field. lra. }
  split.
  - rewrite HE. replace (previous - c - previous) with (- c) by ring.
    now rewrite Rabs_Ropp.
  - rewrite Hnum, Rabs_mult, (Rabs_right D) by lra.
    pose proof (Rabs_pos c) as Hc0.
    apply Rle_lt_trans with (Rabs c * 2).
    + apply Rmult_le_compat_l; lra.
    + lra.
Qed.

Lemma X23_kepler_loop_exit_witness :
  0 <= 0.5 < 1 /\
  exists n : nat,
    (n < 10)%nat /\
    OrbitalMath.keplerLoop 10 0.5 1 1 = Spec.newtonIterate 0.5 1 (S n).
Proof.
  assert (He : 0 <= 0.5 < 1) by lra.
  split; [exact He|].
  destruct (X23_kepler_loop_exit 0.5 1 He) as (n & Hn & Heq & _).
  exists n. split; [exact Hn | exact Heq].
Defined.

(** X24.  The sun's spin is measured from the Unix epoch, not from the
    orbital epoch: outside close view, [updateSun] sets the angle that
    [calculateRotationAngle] gives for the sun's elements
    [J2000_EPOCH] milliseconds later, so at the orbital epoch, where every
    planet's angle is 0, the sun's is not; in close view, or without a
    sun, it changes nothing. *)
Theorem X24_sun_spin_uses_unix_epoch (currentTime : R) (sunBody : SolarSystem.Body) :
  SolarSystem.updateSun currentTime false (Some sunBody)
    = Some {| SolarSystem.mesh := SolarSystem.mesh sunBody;
              SolarSystem.rotation_y :=
                OrbitalMath.calculateRotationAngle (sun celestialData)
                  (currentTime + J2000_EPOCH) |} /\
  OrbitalMath.calculateRotationAngle (sun celestialData) J2000_EPOCH = 0 /\
  OrbitalMath.calculateRotationAngle (sun celestialData)
    (J2000_EPOCH + J2000_EPOCH) <> 0 /\
  SolarSystem.updateSun currentTime true (Some sunBody) = Some sunBody /\
  SolarSystem.updateSun currentTime false None = None.
Proof.
  assert (Hangle : forall T,
            OrbitalMath.calculateRotationAngle (sun celestialData) (T + J2000_EPOCH)
            = T / (1000 * 60 * 60 * 24) / rotationPeriod (sun celestialData)
              * 2 * PI).
  { intros T. unfold OrbitalMath.calculateRotationAngle. cbv zeta.
    destruct (Rlt_dec 0 (rotationPeriod (sun celestialData))) as [_ | Hn];
      [| exfalso; apply Hn; cbn; lra].
    rewrite Rabs_right by (cbn; lra).
    replace (T + J2000_EPOCH - J2000_EPOCH) with T by ring. reflexivity. }
  split; [|split; [|split; [|split]]].
  - unfold SolarSystem.updateSun. cbn [negb]. cbv zeta. now rewrite Hangle.
  - replace J2000_EPOCH with (0 + J2000_EPOCH) at 1 by ring.
    rewrite Hangle. unfold Rdiv. ring.
  - rewrite Hangle. unfold J2000_EPOCH. cbn [rotationPeriod sun celestialData].
    pose proof PI_RGT_0 as Hpi.
    intros H0.
    assert (Hk : 0 < 946728000000 / (1000 * 60 * 60 * 24) / 25.4 * 2) by lra.
    assert (Hprod : 0 < 946728000000 / (1000 * 60 * 60 * 24) / 25.4 * 2 * PI)
      by (apply Rmult_lt_0_compat; assumption).
    lra.
  - reflexivity.
  - reflexivity.
Qed.

(** X25.  A size factor that is absent or 0 counts as 1: the planet mesh
    then has radius [radius * planetSize], never radius 0; any other
    factor multiplies it.  The mesh starts on the positive x axis at the
    displayed semi-major axis and carries the elements it was made from. *)
Theorem X25_planet_size_factor (data : CelestialBodyData) :
  let m := CelestialObjects.createPlanet data in
  (scaleFactor data = None \/ scaleFactor data = Some 0 ->
   CelestialObjects.sphereRadius m = radius data * 0.5) /\
  (forall f, scaleFactor data = Some f -> f <> 0 ->
   CelestialObjects.sphereRadius m = radius data * 0.5 * f) /\
  CelestialObjects.position m = mkVector3 (Spec.a_display data) 0 0 /\
  CelestialObjects.userData m = data.
Proof.
  cbv zeta. unfold CelestialObjects.createPlanet. cbv zeta.
  cbn [CelestialObjects.sphereRadius CelestialObjects.position
       CelestialObjects.userData].
  split; [|split; [|split]].
  - intros [-> | ->]; cbn [JS.or sf_planetSize scaleFactors].
    + ring.
    + destruct (Req_dec_T 0 0) as [_ | Hn]; [ring | contradiction].
  - intros f -> Hf. cbn [JS.or sf_planetSize scaleFactors].
    destruct (Req_dec_T f 0) as [H0 | _]; [contradiction | reflexivity].
  - rewrite JS_or_zero. reflexivity.
  - reflexivity.
Qed.

Lemma X25_planet_size_factor_witness :
  scaleFactor (earth celestialData) = None /\
  CelestialObjects.sphereRadius (CelestialObjects.createPlanet (earth celestialData))
    = 1 * 0.5 /\
  scaleFactor (jupiter celestialData) = Some 0.3 /\
  CelestialObjects.sphereRadius (CelestialObjects.createPlanet (jupiter celestialData))
    = 11.21 * 0.5 * 0.3.
Proof.
  assert (H1 : scaleFactor (earth celestialData) = None) by reflexivity.
  assert (H2 : scaleFactor (jupiter celestialData) = Some 0.3) by reflexivity.
  assert (H3 : 0.3 <> 0) by lra.
  split; [exact H1|]. split.
  - exact (proj1 (X25_planet_size_factor (earth celestialData)) (or_introl H1)).
  - split; [exact H2|].
    exact (proj1 (proj2 (X25_planet_size_factor (jupiter celestialData))) 0.3 H2 H3).
Defined.

End SceneBehaviour.

(* ================================================================== *)
(** ** The round trip between the position and the orbit path *)
(* ================================================================== *)

Section NewtonPasses.

Local Open Scope R_scope.

(** *** Polynomial bounds on sine and cosine *)











End NewtonPasses.

Section RoundTripGeometry.

Import CelestialData.
Local Open Scope R_scope.










End RoundTripGeometry.

(** *** A nearly parabolic comet *)

Section Comet.

Import CelestialData.
Import RoundTrip.
Local Open Scope R_scope.

(** The eccentricity of the comet; the angle by which sample 127 falls
    short of aphelion, and its cosine; the eccentric and the mean anomaly
    of the sample. *)
Let e : R := 0.999999999975.
Let eta : R := PI / 128.
Let c : R := cos eta.
Let E : R := cometEccentricAnomaly.
Let M : R := E - e * sin E.

















End Comet.

Section RoundTripClaim.

Import CelestialData.
Local Open Scope R_scope.




End RoundTripClaim.
